(** * goyave: the request validation engine

    A shallow embedding of [validation/validator.go] (the rule registry, the
    rule token parser, the executor and the message-key composer) and of the
    date validators exercised by the [After*] test file.

    Go values of type [interface{}] are a tagged tree, maps are stdpp [gmap]s,
    [log.Panicf] and Go run-time panics are an explicit [Panicked] outcome, and
    code that mutates a map in place threads the map through: a computation
    returns its outcome together with the map as it is left behind, also when
    it panics. *)

From Stdlib Require Import ZArith String Ascii Floats.
From Stdlib Require DecimalString.
From stdpp Require Import base option strings gmap list.

Set Warnings "-register-all".
Local Open Scope string_scope.
Local Open Scope Z_scope.

(** * Go values and their reflection *)

(** [reflect.Kind], in declaration order, and its [String] method. *)
Inductive Kind :=
| Invalid | Bool | Int | Int8 | Int16 | Int32 | Int64
| Uint | Uint8 | Uint16 | Uint32 | Uint64 | Uintptr
| Float32 | Float64 | Complex64 | Complex128
| Array | Chan | Func | Interface | Map | Ptr | Slice | String_ | Struct
| UnsafePointer.

Definition Kind_String (k : Kind) : string :=
  match k with
  | Invalid => "invalid" | Bool => "bool"
  | Int => "int" | Int8 => "int8" | Int16 => "int16" | Int32 => "int32"
  | Int64 => "int64"
  | Uint => "uint" | Uint8 => "uint8" | Uint16 => "uint16"
  | Uint32 => "uint32" | Uint64 => "uint64" | Uintptr => "uintptr"
  | Float32 => "float32" | Float64 => "float64"
  | Complex64 => "complex64" | Complex128 => "complex128"
  | Array => "array" | Chan => "chan" | Func => "func"
  | Interface => "interface" | Map => "map" | Ptr => "ptr"
  | Slice => "slice" | String_ => "string" | Struct => "struct"
  | UnsafePointer => "unsafe.Pointer"
  end.

(** The Go types of the values a data tree holds. *)
Inductive gotype :=
| TBool | TInt | TInt32 | TUint | TUintptr | TFloat64 | TString
| TInterface                    (* interface{} *)
| TMap                          (* map[string]interface{} *)
| TTime                         (* time.Time *)
| TFile                         (* filesystem.File *)
| TSlice (elem : gotype).

Fixpoint Type_String (t : gotype) : string :=
  match t with
  | TBool => "bool" | TInt => "int" | TInt32 => "int32" | TUint => "uint"
  | TUintptr => "uintptr" | TFloat64 => "float64" | TString => "string"
  | TInterface => "interface {}"
  | TMap => "map[string]interface {}"
  | TTime => "time.Time"
  | TFile => "filesystem.File"
  | TSlice e => "[]" +:+ Type_String e
  end.

Definition Type_Kind (t : gotype) : Kind :=
  match t with
  | TBool => Bool | TInt => Int | TInt32 => Int32 | TUint => Uint
  | TUintptr => Uintptr | TFloat64 => Float64 | TString => String_
  | TInterface => Interface | TMap => Map
  | TTime => Struct | TFile => Struct
  | TSlice _ => Slice
  end.

(** A value held in an [interface{}].  [VNil] is the nil interface; a slice
    carries its static element type, which [reflect] reports for its
    elements; a time is the instant it denotes, in nanoseconds. *)
Inductive value :=
| VNil
| VBool (b : bool)
| VInt (z : Z)
| VInt32 (z : Z)
| VUint (z : Z)
| VUintptr (z : Z)
| VFloat64 (f : float)
| VString (s : string)
| VTime (t : Z)
| VFile (name : string)
| VSlice (elem : gotype) (l : list value)
| VMap (m : gmap string value).

(** [map[string]interface{}]. *)
Abbreviation DataTree := (gmap string value).

(** [reflect.TypeOf]: [None] is the nil [reflect.Type] of a nil interface. *)
Definition TypeOf (v : value) : option gotype :=
  match v with
  | VNil => None
  | VBool _ => Some TBool
  | VInt _ => Some TInt
  | VInt32 _ => Some TInt32
  | VUint _ => Some TUint
  | VUintptr _ => Some TUintptr
  | VFloat64 _ => Some TFloat64
  | VString _ => Some TString
  | VTime _ => Some TTime
  | VFile _ => Some TFile
  | VSlice e _ => Some (TSlice e)
  | VMap _ => Some TMap
  end.

(** A [reflect.Value]: the value together with the static type it was
    reached through.  [reflect.ValueOf] sees the dynamic type; [Index] on a
    slice sees the element type, so an element of a [[]interface{}] has kind
    [Interface] whatever it holds.  [rtype = None] is the zero [Value]. *)
Record reflectValue := { rtype : option gotype; rvalue : value }.

Definition ValueOf (v : value) : reflectValue :=
  {| rtype := TypeOf v; rvalue := v |}.

Definition Value_Kind (rv : reflectValue) : Kind :=
  match rtype rv with
  | None => Invalid
  | Some t => Type_Kind t
  end.

(** * Strings *)

(** [strings.HasPrefix]. *)
Definition HasPrefix (s p : string) : bool := String.prefix p s.

(** [strings.Index(s, sep)] for a one-byte [sep]; -1 when absent. *)
Fixpoint IndexByte (s : string) (c : ascii) : Z :=
  match s with
  | EmptyString => -1
  | String a s' =>
      if Ascii.eqb a c then 0
      else let i := IndexByte s' c in if i <? 0 then -1 else i + 1
  end.

(** [strings.Count(s, sep)] for a one-byte [sep]. *)
Fixpoint CountByte (s : string) (c : ascii) : Z :=
  match s with
  | EmptyString => 0
  | String a s' => (if Ascii.eqb a c then 1 else 0) + CountByte s' c
  end.

(** [strings.Split(s, sep)] for a one-byte [sep]: always at least one piece. *)
Fixpoint SplitByte (s : string) (c : ascii) : list string :=
  match s with
  | EmptyString => [EmptyString]
  | String a s' =>
      if Ascii.eqb a c then EmptyString :: SplitByte s' c
      else match SplitByte s' c with
           | [] => [String a EmptyString]
           | p :: ps => String a p :: ps
           end
  end.

(** The slice expressions [s[:i]] and [s[i:]], for [0 <= i <= len(s)]. *)
Definition slice_to (s : string) (i : Z) : string :=
  String.substring 0 (Z.to_nat i) s.
Definition slice_from (s : string) (i : Z) : string :=
  String.substring (Z.to_nat i) (String.length s - Z.to_nat i) s.

(** * Outcomes *)

(** The panics of the package: each [log.Panicf] of [validator.go] with the
    arguments of its format string, and the panics of the Go run time. *)
Inductive panic :=
| RuleAlreadyExists (name : string)
| InvalidRule (rule : string)
| RuleDoesNotExist (ruleName : string)
| NonArrayField (fieldName t : string)
| RequiresParameters (rule : string) (count : Z)
| RuntimeError (what : string)
| BadParameter (param : string).

Inductive result (A : Type) :=
| Ok (a : A)
| Panicked (p : panic).
Arguments Ok {A} a.
Arguments Panicked {A} p.

(** A computation over a mutable store [S]: the store survives a panic as the
    panicking code left it. *)
Definition M (S A : Type) : Type := S -> result A * S.

Definition ret {S A} (a : A) : M S A := fun s => (Ok a, s).
Definition throw {S A} (p : panic) : M S A := fun s => (Panicked p, s).
Definition bind {S A B} (m : M S A) (k : A -> M S B) : M S B :=
  fun s => match m s with
           | (Ok a, s') => k a s'
           | (Panicked p, s') => (Panicked p, s')
           end.
Definition get {S} : M S S := fun s => (Ok s, s).
Definition modify {S} (f : S -> S) : M S unit := fun s => (Ok tt, f s).

Declare Scope go_scope.
Delimit Scope go_scope with go.
Notation "'let!' x := m 'in' k" := (bind m (fun x => k))
  (at level 10, x name, m at level 100, k at level 200) : go_scope.
Notation "m ;; k" := (bind m (fun _ => k))
  (at level 100, k at level 200, right associativity) : go_scope.

(** [type Rule func(string, interface{}, []string, map[string]interface{}) bool]:
    a rule may write into the map it is given, and may panic. *)
Definition Rule : Type := string -> value -> list string -> M DataTree bool.

(** [type Errors map[string][]string], [type RuleSet map[string][]string]. *)
Abbreviation Errors := (gmap string (list string)).
Abbreviation RuleSet := (gmap string (list string)).

(** A map read [data[fieldName]]: the zero value, nil, when the key is absent. *)
Definition index (data : DataTree) (fieldName : string) : value :=
  default VNil (data !! fieldName).

(** [x == nil] on an interface value. *)
Definition isNil (v : value) : bool :=
  match v with VNil => true | _ => false end.

(** * Semantic types *)

Definition getFieldType (value : reflectValue) : string :=
  let kind := Kind_String (Value_Kind value) in
  if HasPrefix kind "int"
     || (HasPrefix kind "uint" && negb (String.eqb kind "uintptr"))
     || HasPrefix kind "float"
  then "numeric"
  else if String.eqb kind "string" then "string"
  else if String.eqb kind "slice" then
    if String.eqb (from_option Type_String EmptyString (rtype value)) "[]filesystem.File"
    then "file"
    else "array"
  else "unsupported".

Definition GetFieldType (value : value) : string :=
  getFieldType (ValueOf value).

(** [RequireParametersCount] panics unless [params] has at least [count]
    elements. *)
Definition RequireParametersCount {S} (rule : string) (params : list string)
    (count : Z) : M S unit :=
  if Z.of_nat (length params) <? count
  then throw (RequiresParameters rule count)
  else ret tt.

(** * What the engine is linked against *)

(** Modelled from the spec: [helper.Contains] (package [helper] is not under
    [src/]) tells whether a rule list requests a marker, that is whether the
    string occurs in the slice. *)
Definition helper_Contains (slice : list string) (value : string) : bool :=
  existsb (String.eqb value) slice.

(** The collaborators the engine calls and that are not part of it: the
    message store [lang.Get], the placeholder substitution
    [processPlaceholders], [strconv.ParseFloat] (its error is [None]), and the
    rule functions of the package other than the three modelled below, by the
    name they are registered under. *)
Class Collaborators := {
  lang_Get : string -> string -> string;
  processPlaceholders :
    string -> string -> list string -> string -> string -> string;
  ParseFloat : string -> option float;
  ruleFunc : string -> Rule
}.

(** The [float64] conversion of an integer (round to nearest even). *)
Definition float64 (z : Z) : float :=
  SF2Prim (binary_normalize prec emax z 0 false).

(** Modelled from the spec: [helper.ToFloat64] on the values whose semantic
    type is numeric. *)
Definition helper_ToFloat64 (v : value) : option float :=
  match v with
  | VInt z | VInt32 z | VUint z => Some (float64 z)
  | VFloat64 f => Some f
  | _ => None
  end.

(** * The engine *)

Section Engine.
Context `{Collaborators}.
Local Open Scope go_scope.

(** ** Rule functions *)

(** Modelled from the spec: [validateRequired] (the rule functions live in
    rules.go, which is not under [src/]).  The required check fails for a
    field that reads as nil because the tree has no such key, for the empty
    string and for an empty collection (4.5, step 2).  It looks the field up
    in the tree it is given: a key that is present and holds nil passes, as
    the nullable case of [TestValidate] needs, where the rule list
    required, nullable, numeric over a nil field records no error. *)
Definition validateRequired : Rule := fun field value parameters form =>
  match form !! field with
  | None => (Ok false, form)
  | Some (VString EmptyString) => (Ok false, form)
  | Some (VSlice _ []) => (Ok false, form)
  | Some _ => (Ok true, form)
  end.

(** Modelled from the spec: [validateNumeric].  A number passes; a string
    passes when it parses as a number and is then replaced in the tree by
    the [float64] it denotes (the coercion named in 3 and in the comment on
    [Rule]); anything else fails. *)
Definition validateNumeric : Rule := fun field value parameters form =>
  match value with
  | VInt _ | VInt32 _ | VUint _ | VFloat64 _ => (Ok true, form)
  | VString s =>
      match ParseFloat s with
      | Some floatVal => (Ok true, <[field := VFloat64 floatVal]> form)
      | None => (Ok false, form)
      end
  | _ => (Ok false, form)
  end.

(** Modelled from the spec: [validateMin], a type-dependent rule with one
    parameter.  By semantic type: a number is at least the bound, a string
    or an array has at least that length (8: every element length at least
    3); a value of another semantic type is not checked. *)
Definition validateMin : Rule := fun field value parameters =>
  RequireParametersCount "min" parameters 1 ;;
  match ParseFloat (nth 0 parameters EmptyString) with
  | None => throw (BadParameter (nth 0 parameters EmptyString))
  | Some min =>
      let t := GetFieldType value in
      if String.eqb t "numeric" then
        ret (from_option (PrimFloat.leb min) false (helper_ToFloat64 value))
      else if String.eqb t "string" then
        match value with
        | VString s => ret (PrimFloat.leb min (float64 (Z.of_nat (String.length s))))
        | _ => ret true
        end
      else if String.eqb t "array" then
        match value with
        | VSlice _ l => ret (PrimFloat.leb min (float64 (Z.of_nat (length l))))
        | _ => ret true
        end
      else ret true
  end.

(** ** Rule Registry *)

(** The package variables [validationRules] and [typeDependentMessageRules]. *)
Record Registry := {
  validationRules : gmap string Rule;
  typeDependentMessageRules : list string
}.

(** Rules that check the data type and can be used to validate arrays. *)
Definition typeRules : list string :=
  [ "numeric"; "integer"; "timezone"; "ip";
    "ipv4"; "ipv6"; "json"; "url"; "uuid";
    "bool"; "date"; "string" ].

(** The registry as [init] leaves it. *)
Definition init : Registry := {|
  validationRules := list_to_map
    [ ("required", validateRequired);
      ("numeric", validateNumeric);
      ("integer", ruleFunc "integer");
      ("min", validateMin);
      ("max", ruleFunc "max");
      ("between", ruleFunc "between");
      ("greater_than", ruleFunc "greater_than");
      ("greater_than_equal", ruleFunc "greater_than_equal");
      ("lower_than", ruleFunc "lower_than");
      ("lower_than_equal", ruleFunc "lower_than_equal");
      ("string", ruleFunc "string");
      ("array", ruleFunc "array");
      ("distinct", ruleFunc "distinct");
      ("digits", ruleFunc "digits");
      ("regex", ruleFunc "regex");
      ("email", ruleFunc "email");
      ("size", ruleFunc "size");
      ("alpha", ruleFunc "alpha");
      ("alpha_dash", ruleFunc "alpha_dash");
      ("alpha_num", ruleFunc "alpha_num");
      ("starts_with", ruleFunc "starts_with");
      ("ends_with", ruleFunc "ends_with");
      ("in", ruleFunc "in");
      ("not_in", ruleFunc "not_in");
      ("in_array", ruleFunc "in_array");
      ("not_in_array", ruleFunc "not_in_array");
      ("timezone", ruleFunc "timezone");
      ("ip", ruleFunc "ip");
      ("ipv4", ruleFunc "ipv4");
      ("ipv6", ruleFunc "ipv6");
      ("json", ruleFunc "json");
      ("url", ruleFunc "url");
      ("uuid", ruleFunc "uuid");
      ("bool", ruleFunc "bool");
      ("same", ruleFunc "same");
      ("different", ruleFunc "different");
      ("confirmed", ruleFunc "confirmed");
      ("file", ruleFunc "file");
      ("mime", ruleFunc "mime");
      ("image", ruleFunc "image");
      ("extension", ruleFunc "extension");
      ("count", ruleFunc "count");
      ("count_min", ruleFunc "count_min");
      ("count_max", ruleFunc "count_max");
      ("count_between", ruleFunc "count_between");
      ("date", ruleFunc "date");
      ("before", ruleFunc "before");
      ("before_equal", ruleFunc "before_equal");
      ("after", ruleFunc "after");
      ("after_equal", ruleFunc "after_equal");
      ("date_equals", ruleFunc "date_equals");
      ("date_between", ruleFunc "date_between") ];
  typeDependentMessageRules :=
    [ "min"; "max"; "between"; "size";
      "greater_than"; "greater_than_equal";
      "lower_than"; "lower_than_equal" ]
|}.

(** [AddRule] registers a validation rule under [name]. *)
Definition AddRule (name : string) (typeDependentMessage : bool) (rule : Rule)
    : M Registry unit := fun reg =>
  match validationRules reg !! name with
  | Some _ => (Panicked (RuleAlreadyExists name), reg)
  | None =>
      let rules := <[name := rule]> (validationRules reg) in
      (Ok tt,
       {| validationRules := rules;
          typeDependentMessageRules :=
            if typeDependentMessage
            then (typeDependentMessageRules reg ++ [name])%list
            else typeDependentMessageRules reg |})
  end.

Definition isTypeDependent (reg : Registry) (rule : string) : bool :=
  helper_Contains (typeDependentMessageRules reg) rule.

Definition isArrayType (rule : string) : bool :=
  helper_Contains typeRules rule.

Definition isRequired (field : list string) : bool :=
  helper_Contains field "required".

Definition isNullable (field : list string) : bool :=
  helper_Contains field "nullable".

Definition isArray (field : list string) : bool :=
  helper_Contains field "array".

(** ** Rule Token Parser *)

(** [parseRule] returns [(ruleName, validatesArray, params)].  Indexing the
    first byte of an empty name is a run-time panic. *)
Definition parseRule (reg : Registry) (rule : string)
    : result (string * bool * list string) :=
  let indexName := IndexByte rule ":" in
  let parsed : result (string * list string) :=
    if indexName =? -1 then
      if CountByte rule "," >? 0 then Panicked (InvalidRule rule)
      else Ok (rule, [])
    else Ok (slice_to rule indexName,
             SplitByte (slice_from rule (indexName + 1)) ",")
  in
  match parsed with
  | Panicked p => Panicked p
  | Ok (ruleName, params) =>
      match ruleName with
      | EmptyString => Panicked (RuntimeError "index out of range")
      | String c tail =>
          let '(ruleName, validatesArray) :=
            if Ascii.eqb c ">" then (tail, true) else (ruleName, false) in
          match validationRules reg !! ruleName with
          | None => Panicked (RuleDoesNotExist ruleName)
          | Some _ => Ok (ruleName, validatesArray, params)
          end
      end
  end.

(** ** Message Composer *)

(** The language entry [getMessage] asks the message store for. *)
Definition langEntry (reg : Registry) (rule : string) (value : reflectValue)
    (inArray : bool) : string :=
  let langEntry := "validation.rules." +:+ rule in
  let langEntry :=
    if isTypeDependent reg rule
    then langEntry +:+ "." +:+ getFieldType value
    else langEntry in
  if inArray then langEntry +:+ ".array" else langEntry.

Definition getMessage (reg : Registry) (rule : string) (value : reflectValue)
    (language : string) (inArray : bool) : string :=
  lang_Get language (langEntry reg rule value inArray).

(** ** Validation Executor *)

(** [*http.Request], of which the engine reads the header only. *)
Record Request := { Header : gmap string (list string) }.

(** [Header.Get]: the first value under the key, or the empty string. *)
Definition Header_Get (h : gmap string (list string)) (key : string) : string :=
  match h !! key with
  | Some (v :: _) => v
  | _ => EmptyString
  end.

(** [errors[fieldName] = append(errors[fieldName], message)]. *)
Definition appendError (errors : Errors) (fieldName message : string) : Errors :=
  <[fieldName := (default [] (errors !! fieldName) ++ [message])%list]> errors.

(** [v.Set(x)] on an element of a slice of element type [elem]: the zero
    [Value] and a value of another type than the element's are refused. *)
Definition settable (elem : gotype) (x : value) : bool :=
  match TypeOf x with
  | None => false
  | Some t =>
      match elem with
      | TInterface => true
      | _ => String.eqb (Type_String t) (Type_String elem)
      end
  end.

(** The write of [v.Set] goes to the backing array of the slice under
    [data[fieldName]].  The tree holds its slices by value: a second key
    that holds the same slice, which in Go would see the write too, is not
    represented, so what is stated of the engine below speaks of the field
    under validation and not of the values under the other keys. *)
Definition setElement (fieldName : string) (i : nat) (x : value)
    (data : DataTree) : DataTree :=
  match data !! fieldName with
  | Some (VSlice elem l) => <[fieldName := VSlice elem (<[i := x]> l)]> data
  | _ => data
  end.

(** The loop of [validateRuleInArray] from index [i] on, [rest] being the
    elements not visited yet. *)
Fixpoint validateElements (reg : Registry) (ruleName fieldName : string)
    (params : list string) (elem : gotype) (i : nat) (rest : list value)
    : M DataTree (option reflectValue) :=
  match rest with
  | [] => ret None
  | value :: rest =>
      let v := {| rtype := Some elem; rvalue := value |} in
      let tmpData : DataTree := {[ fieldName := value ]} in
      match (validationRules reg !! ruleName : option Rule) with
      | None => throw (RuntimeError "nil func call")
      | Some rule =>
          match rule fieldName value params tmpData with
          | (Panicked p, _) => throw p
          | (Ok false, _) => ret (Some v)
          | (Ok true, tmpData) =>
              (* Update original array if value has been modified. *)
              let x := index tmpData fieldName in
              if settable elem x then
                modify (setElement fieldName i x) ;;
                validateElements reg ruleName fieldName params elem (S i) rest
              else throw (RuntimeError "reflect.Value.Set")
          end
      end
  end.

Definition validateRuleInArray (reg : Registry) (ruleName fieldName : string)
    (params : list string) : M DataTree (option reflectValue) := fun data =>
  let t := GetFieldType (index data fieldName) in
  if negb (String.eqb t "array") then
    (Panicked (NonArrayField fieldName t), data)
  else
    match index data fieldName with
    | VSlice elem list =>
        validateElements reg ruleName fieldName params elem 0 list data
    | _ => (Panicked (RuntimeError "reflect.Value.Len"), data)
    end.

(** Convert single value arrays in url-encoded requests.  [reflect.SliceOf]
    of the nil type of a nil value is a run-time panic. *)
Definition convertArray (isJSON : bool) (fieldName : string)
    (field : list string) : M DataTree unit := fun data =>
  if negb isJSON then
    let val := index data fieldName in
    let rv := ValueOf val in
    let kind := Kind_String (Value_Kind rv) in
    if isArray field && negb (String.eqb kind "slice") then
      match TypeOf val with
      | None => (Panicked (RuntimeError "nil pointer dereference"), data)
      | Some rt => (Ok tt, <[fieldName := VSlice rt [val]]> data)
      end
    else (Ok tt, data)
  else (Ok tt, data).

(** The inner loop of [validate] over the rule tokens of one field; [break]
    returns, [continue] recurses. *)
Fixpoint validateRules (reg : Registry) (language fieldName : string)
    (field : list string) (errors : Errors) : M DataTree Errors :=
  match field with
  | [] => ret errors
  | rule :: field =>
      if String.eqb rule "nullable" then
        let! data := get in
        if isNil (index data fieldName) then ret errors
        else validateRules reg language fieldName field errors
      else
        match parseRule reg rule with
        | Panicked p => throw p
        | Ok (ruleName, validatesArray, params) =>
            if validatesArray then
              let! errorValue :=
                validateRuleInArray reg ruleName fieldName params in
              match errorValue with
              | Some errorValue =>
                  validateRules reg language fieldName field
                    (appendError errors fieldName
                       (processPlaceholders fieldName ruleName params
                          (getMessage reg ruleName errorValue language
                             validatesArray) language))
              | None => validateRules reg language fieldName field errors
              end
            else
              let! data := get in
              match (validationRules reg !! ruleName : option Rule) with
              | None => throw (RuntimeError "nil func call")
              | Some r =>
                  let! ok := r fieldName (index data fieldName) params in
                  if ok then validateRules reg language fieldName field errors
                  else
                    let! data := get in
                    validateRules reg language fieldName field
                      (appendError errors fieldName
                         (processPlaceholders fieldName ruleName params
                            (getMessage reg ruleName
                               (ValueOf (index data fieldName)) language
                               validatesArray) language))
              end
        end
  end.

(** The body of the loop of [validate] for one entry of the rule set. *)
Definition validateField (reg : Registry) (isJSON : bool) (language : string)
    (fieldName : string) (field : list string) (errors : Errors)
    : M DataTree Errors :=
  (let! data := get in
   if negb (isNullable field) && isNil (index data fieldName)
   then modify (delete fieldName) else ret tt) ;;
  let! skip :=
    (if negb (isRequired field) then
       let! data := get in
       let! present := validateRequired fieldName (index data fieldName) [] in
       ret (negb present)
     else ret false) in
  if skip then ret errors
  else
    convertArray isJSON fieldName field ;;
    validateRules reg language fieldName field errors.

(** The loop of [validate], the entries taken in the order [fields]. *)
Fixpoint validateFields (reg : Registry) (isJSON : bool) (language : string)
    (fields : list (string * list string)) (errors : Errors) : M DataTree Errors :=
  match fields with
  | [] => ret errors
  | (fieldName, field) :: fields =>
      let! errors := validateField reg isJSON language fieldName field errors in
      validateFields reg isJSON language fields errors
  end.

(** [validate].  Go leaves the order in which [range] visits a map open;
    the entries are visited here in the order of [map_to_list]. *)
Definition validate (reg : Registry) (request : Request) (rules : RuleSet)
    (language : string) : M DataTree Errors :=
  let errors : Errors := ∅ in
  let isJSON :=
    String.eqb (Header_Get (Header request) "Content-Type") "application/json" in
  validateFields reg isJSON language (map_to_list rules) errors.

(** [Validate]; the nil map is [None]. *)
Definition Validate (reg : Registry) (request : Request) (rules : RuleSet)
    (language : string) : M (option DataTree) Errors := fun data =>
  let malformedMessage :=
    if String.eqb (Header_Get (Header request) "Content-Type") "application/json"
    then "Malformed JSON"
    else "Malformed request" in
  match data with
  | None => (Ok {[ "error" := [malformedMessage] ]}, None)
  | Some data =>
      let '(errors, data) := validate reg request rules language data in
      (errors, Some data)
  end.

End Engine.

(** * The date validators of the [After] family *)

(** The validators themselves are not under [src/]; only their tests are
    ([TestAfterValidator] and its siblings).  They are modelled from the
    specification (4.3 and 4.4) and checked against the test tables. *)

Module V5.

(** The context a validator is run with: the value under validation and the
    root of the data tree. *)
Record ContextV5 := { Value : value; Data : DataTree }.

(** Modelled from the spec: the Validator Protocol of 4.4, without the
    message placeholders.  [Validate] may only fail fatally through the
    path resolver. *)
Class Validator (V : Type) := {
  Name : V -> string;
  IsType : V -> bool;
  IsTypeDependent : V -> bool;
  Validate : V -> ContextV5 -> result bool
}.

(** [t.After(u)] and [t.Equal(u)] on instants. *)
Definition Time_After (t u : Z) : bool := u <? t.
Definition Time_Equal (t u : Z) : bool := t =? u.

(** Modelled from the spec: the comparison shared by the family.  The
    candidate must be a concrete date; any other value is an automatic
    fail. *)
Definition validateDate (comparisonFunc : Z -> Z -> bool) (ref : Z)
    (candidate : value) : bool :=
  match candidate with
  | VTime date => comparisonFunc date ref
  | _ => false
  end.

(** Modelled from the spec: [After(ref)], strictly after the reference. *)
Record AfterValidator := After { AfterRef : Z }.

#[global] Instance AfterValidator_Validator : Validator AfterValidator := {|
  Name := fun _ => "after";
  IsType := fun _ => false;
  IsTypeDependent := fun _ => false;
  Validate := fun v ctx => Ok (validateDate Time_After (AfterRef v) (Value ctx))
|}.

(** Modelled from the spec: [AfterEqual(ref)], after or equal to the
    reference. *)
Record AfterEqualValidator := AfterEqual { AfterEqualRef : Z }.

#[global] Instance AfterEqualValidator_Validator
    : Validator AfterEqualValidator := {|
  Name := fun _ => "after_equal";
  IsType := fun _ => false;
  IsTypeDependent := fun _ => false;
  Validate := fun v ctx =>
    Ok (validateDate (fun t u => Time_After t u || Time_Equal t u)
          (AfterEqualRef v) (Value ctx))
|}.

(** ** Field Path Resolver *)

(** One component of a field path: a plain key, or a key followed by the
    wildcard [[]] that stands for every element of the collection found
    there. *)
Inductive Segment :=
| Key (name : string)
| Each (name : string).

Definition hasBracket (s : string) : bool :=
  (0 <? CountByte s "[") || (0 <? CountByte s "]").

(** Modelled from the spec: parsing one dotted component.  A component is a
    non-empty name without brackets, optionally followed by [[]]. *)
Definition parseSegment (path component : string) : result Segment :=
  let n := String.length component in
  let name :=
    if String.eqb (String.substring (n - 2)%nat 2 component) "[]"
    then String.substring 0 (n - 2)%nat component
    else component in
  if String.eqb name EmptyString || hasBracket name then Panicked (BadParameter path)
  else if String.eqb name component then Ok (Key name)
  else Ok (Each name).

Fixpoint sequence {A} (l : list (result A)) : result (list A) :=
  match l with
  | [] => Ok []
  | Ok a :: l =>
      match sequence l with
      | Ok l => Ok (a :: l)
      | Panicked p => Panicked p
      end
  | Panicked p :: _ => Panicked p
  end.

(** Modelled from the spec: parsing a dotted and bracketed field path; bad
    syntax is fatal, at construction. *)
Definition parsePath (path : string) : result (list Segment) :=
  sequence (parseSegment path <$> SplitByte path ".").

(** Modelled from the spec: resolving a parsed path from a value of the
    tree (4.3).  A plain key descends into a map, an absent key reading as
    nil; a wildcard fans out over every element of the collection under
    the key, in order.  Addressing a value that is not a map, or a
    wildcard on a value that is not a collection, is fatal. *)
Fixpoint resolve (path : list Segment) (v : value) : result (list value) :=
  match path with
  | [] => Ok [v]
  | Key name :: path =>
      match v with
      | VMap m => resolve path (default VNil (m !! name))
      | _ => Panicked (RuntimeError "not a traversable container")
      end
  | Each name :: path =>
      match v with
      | VMap m =>
          match default VNil (m !! name) with
          | VSlice _ l =>
              match sequence (resolve path <$> l) with
              | Ok ls => Ok (concat ls)
              | Panicked p => Panicked p
              end
          | _ => Panicked (RuntimeError "not an array")
          end
      | _ => Panicked (RuntimeError "not a traversable container")
      end
  end.

(** Modelled from the spec: the field-referencing variant holds the parsed
    path only; the reference is looked up in the tree of the context when
    [Validate] runs, and the comparison must hold against every value the
    path resolves to. *)
Record AfterFieldValidator := { AfterFieldPath : list Segment }.

Definition AfterField (path : string) : result AfterFieldValidator :=
  match parsePath path with
  | Ok p => Ok {| AfterFieldPath := p |}
  | Panicked p => Panicked p
  end.

Definition validateField_date (comparisonFunc : Z -> Z -> bool)
    (path : list Segment) (ctx : ContextV5) : result bool :=
  match Value ctx with
  | VTime date =>
      match resolve path (VMap (Data ctx)) with
      | Ok refs =>
          Ok (forallb (fun ref =>
                         match ref with
                         | VTime ref => comparisonFunc date ref
                         | _ => false
                         end) refs)
      | Panicked p => Panicked p
      end
  | _ => Ok false
  end.

#[global] Instance AfterFieldValidator_Validator
    : Validator AfterFieldValidator := {|
  Name := fun _ => "after";
  IsType := fun _ => false;
  IsTypeDependent := fun _ => false;
  Validate := fun v ctx => validateField_date Time_After (AfterFieldPath v) ctx
|}.

(** [makeAfterFieldData]: the tree with the references under
    [object.field]. *)
Definition makeAfterFieldData (ref : list Z) : DataTree :=
  {[ "object" := VMap {[ "field" := VSlice TTime (VTime <$> ref) ]} ]}.

End V5.

(** * File system helpers *)

(** [util/fsutil/fsutil.go].  A file system is the answers of its methods;
    an [error] is a value, nil being [None]. *)

Module fsutil.

(** Go errors: an error of the file system, the wrappers [errors.NewSkip]
    and [errors.New] of the framework, and [*fs.PathError]. *)
Inductive error :=
| Errno (msg : string)
| NewSkip (err : error) (skip : Z)
| New (err : error)
| PathError (Op Path : string) (Err : error).

(** [fs.FileInfo], of which the helpers read the size and the directory
    flag. *)
Record FileInfo := { Size : Z; IsDir : bool }.

(** [fs.File]: what [Stat] answers, what [Read] puts into a buffer of a
    given length, and what [Close] answers. *)
Record File := {
  File_Stat : FileInfo + error;
  File_Read : nat -> list ascii + error;
  File_Close : option error
}.

(** [fs.FS] and [fs.StatFS]. *)
Class FS (T : Type) := { Open : T -> string -> File + error }.
Class StatFS (T : Type) := { Stat : T -> string -> FileInfo + error }.

(** [strings.LastIndex(s, sep)] for a one-byte [sep]; -1 when absent. *)
Fixpoint LastIndexByte (s : string) (c : ascii) : Z :=
  match s with
  | EmptyString => -1
  | String a s' =>
      let i := LastIndexByte s' c in
      if 0 <=? i then i + 1 else if Ascii.eqb a c then 0 else -1
  end.

(** [strings.HasSuffix]. *)
Definition HasSuffix (s suffix : string) : bool :=
  (String.length suffix <=? String.length s)%nat
  && String.eqb
       (String.substring (String.length s - String.length suffix)
          (String.length suffix) s)
       suffix.

(** [strconv.FormatInt(i, 10)]. *)
Definition FormatInt (i : Z) : string :=
  DecimalString.NilZero.string_of_int (Z.to_int i).

Definition contentTypeByExtension : gmap string string :=
  {[ ".jsonld" := "application/ld+json";
     ".json" := "application/json";
     ".js" := "text/javascript";
     ".mjs" := "text/javascript";
     ".css" := "text/css" ]}.

(** [GetFileExtension] returns the last part of a file name, the empty
    string if the file has no extension. *)
Definition GetFileExtension (filename : string) : string :=
  let index := LastIndexByte filename "." in
  if index =? -1 then EmptyString
  else slice_from filename (index + 1).

(** The loop of [GetMIMEType] over the extension table, [order] being the
    order in which [range] visits the map; it ends at the first extension
    the file name ends with. *)
Fixpoint rangeExtensions (order : list (string * string))
    (file contentType : string) : string :=
  match order with
  | [] => contentType
  | (ext, t) :: order =>
      if HasSuffix file ext then
        let i := IndexByte contentType ";" in
        if negb (i =? -1) then t +:+ slice_from contentType i else t
      else rangeExtensions order file contentType
  end.

(** The content type by extension, for what was detected as a byte stream
    or as plain text. *)
Definition byExtension (order : list (string * string))
    (file contentType : string) : string :=
  if HasPrefix contentType "application/octet-stream"
     || HasPrefix contentType "text/plain"
  then rangeExtensions order file contentType
  else contentType.

(** The buffer of 512 bytes after a read: what was read, then zeros. *)
Definition buffer (read : list ascii) : list ascii :=
  take 512 (read ++ replicate 512 Ascii.zero).

Section MIME.
(** [http.DetectContentType]. *)
Variable DetectContentType : list ascii -> string.

(** [GetMIMEType] returns [(contentType, size, err)]; the deferred close
    sets the error when there is none yet. *)
Definition GetMIMEType {T} `{FS T} (order : list (string * string))
    (filesystem : T) (file : string) : string * Z * option error :=
  match Open filesystem file with
  | inr err => (EmptyString, 0, Some (NewSkip err 3))
  | inl f =>
      let '(contentType, size, err) :=
        match File_Stat f with
        | inr err => (EmptyString, 0, Some (NewSkip err 3))
        | inl stat =>
            let size := Size stat in
            let contentType := "application/octet-stream" in
            let detected :=
              if negb (size =? 0) then
                match File_Read f 512 with
                | inr err => inr err
                | inl read => inl (DetectContentType (buffer read))
                end
              else inl contentType in
            match detected with
            | inr err => (contentType, size, Some (NewSkip err 3))
            | inl contentType =>
                (byExtension order file contentType, size, None)
            end
        end in
      let errClose := File_Close f in
      (contentType, size,
       match err, errClose with
       | None, Some errClose => Some (New errClose)
       | _, _ => err
       end)
  end.
End MIME.

(** [FileExists] returns true if the file at the given path exists and is
    readable, false if it is a directory. *)
Definition FileExists {T} `{StatFS T} (fs : T) (file : string) : bool :=
  match Stat fs file with
  | inl stats => negb (IsDir stats)
  | inr _ => false
  end.

(** [IsDirectory] returns true if the file at the given path exists, is a
    directory and is readable. *)
Definition IsDirectory {T} `{StatFS T} (fs : T) (path : string) : bool :=
  match Stat fs path with
  | inl stats => IsDir stats
  | inr _ => false
  end.

(** [timestampFileName], [now] being [time.Now().UnixNano()]; the division
    of Go truncates. *)
Definition timestampFileName (now : Z) (name : string) : string :=
  let index := LastIndexByte name "." in
  let '(prefix, extension) :=
    if index =? -1 then (name, EmptyString)
    else (slice_to name index, slice_from name index) in
  prefix +:+ "-" +:+ FormatInt (Z.quot now 1000) +:+ extension.

(** [Embed] is an extension of [embed.FS] implementing [fs.StatFS]. *)
Record Embed := { Embed_FS : string -> File + error }.

#[global] Instance Embed_Open : FS Embed := {| Open := Embed_FS |}.

(** [Embed.Stat] returns [(fileinfo, err)]; a failing close is reported
    when [Stat] itself succeeded. *)
Definition Embed_Stat (e : Embed) (name : string)
    : option FileInfo * option error :=
  match Open e name with
  | inr err => (None, Some err)
  | inl f =>
      let '(fileinfo, err) :=
        match File_Stat f with
        | inl fileinfo => (Some fileinfo, None)
        | inr err => (None, Some err)
        end in
      (fileinfo,
       match err, File_Close f with
       | None, Some e => Some (PathError "close" name e)
       | _, _ => err
       end)
  end.

(** [Embed] as a [fs.StatFS]: a caller takes the answer for an error as
    soon as the error is not nil. *)
#[global] Instance Embed_StatFS : StatFS Embed := {|
  Stat := fun e name =>
    match Embed_Stat e name with
    | (_, Some err) => inr err
    | (Some fileinfo, None) => inl fileinfo
    | (None, None) => inr (Errno "invalid FileInfo")
    end
|}.

End fsutil.

(** * A concrete environment *)

(** Unsigned decimal integers, the numbers the rule parameters of the tests
    are written with. *)
Fixpoint parseDigits (s : string) (acc : Z) : option Z :=
  match s with
  | EmptyString => Some acc
  | String c s =>
      let n := Z.of_nat (nat_of_ascii c) in
      if (48 <=? n) && (n <=? 57)
      then parseDigits s (10 * acc + (n - 48))
      else None
  end.

Definition parseDecimal (s : string) : option float :=
  match s with
  | EmptyString => None
  | _ => float64 <$> parseDigits s 0
  end.

(** A message store that answers an entry with the entry itself, a
    placeholder substitution that leaves the message alone, and rule
    functions that accept everything. *)
Definition plainCollaborators : Collaborators := {|
  lang_Get := fun language entry => entry;
  processPlaceholders := fun fieldName ruleName params message language => message;
  ParseFloat := parseDecimal;
  ruleFunc := fun name field value parameters form => (Ok true, form)
|}.

Definition jsonRequest : Request :=
  {| Header := {[ "Content-Type" := ["application/json"] ]} |}.

Definition formRequest : Request :=
  {| Header := {[ "Content-Type" := ["application/x-www-form-urlencoded"] ]} |}.

(** A file system held in memory: the files by name. *)
#[global] Instance memoryFS : fsutil.FS (gmap string fsutil.File) := {|
  fsutil.Open := fun files name =>
    match files !! name with
    | Some f => inl f
    | None => inr (fsutil.Errno "file does not exist")
    end
|}.

(** A file of two bytes that reads and closes without error, and a
    detector that takes everything for plain text. *)
Definition jsonFile : fsutil.File := {|
  fsutil.File_Stat := inl {| fsutil.Size := 2; fsutil.IsDir := false |};
  fsutil.File_Read := fun n => inl (take n ["{"; "}"]%char);
  fsutil.File_Close := None
|}.

Definition plainTextDetector (data : list ascii) : string :=
  "text/plain; charset=utf-8".

(** A cross-field rule: it passes when the tree it is handed has an owner
    key, whatever the field under validation holds. *)
Definition hasOwner : Rule := fun field value parameters form =>
  (Ok (match form !! "owner" with Some _ => true | None => false end), form).

(** * Predicates of the statements *)

(** The reading under which an element check is handed the full data tree:
    a rule function that accepts every element of an array field when it is
    given the whole tree is never reported as failing on one of them. *)
Definition elementChecksSeeTree `{Collaborators} : Prop :=
  forall reg ruleName (r : Rule) fieldName params elem l (data : DataTree),
    validationRules reg !! ruleName = Some r ->
    data !! fieldName = Some (VSlice elem l) ->
    GetFieldType (index data fieldName) = "array" ->
    (forall v, v ∈ l -> r fieldName v params data = (Ok true, data)) ->
    forall errorValue,
      (validateRuleInArray reg ruleName fieldName params data).1
      <> Ok (Some errorValue).



(** The rule function [r], run on the element [x] of the field alone,
    accepts it and leaves [y] under the field name, a value the slice can
    take back. *)
Definition passes (r : Rule) (fieldName : string) (params : list string)
    (elem : gotype) (x y : value) : Prop :=
  exists tmpData : DataTree,
    r fieldName x params {[ fieldName := x ]} = (Ok true, tmpData)
    /\ index tmpData fieldName = y
    /\ settable elem y = true.

(** The rule function [r], run on the element [x] of the field alone,
    rejects it. *)
Definition fails (r : Rule) (fieldName : string) (params : list string)
    (x : value) : Prop :=
  (r fieldName x params {[ fieldName := x ]}).1 = Ok false.

(** Every name with a type-dependent message is a registered rule. *)
Definition typeDependentRegistered (reg : Registry) : Prop :=
  forall name,
    isTypeDependent reg name = true ->
    is_Some (validationRules reg !! name).

(** [strings.Join(l, sep)] for a one-byte [sep]. *)
Fixpoint JoinByte (l : list string) (c : ascii) : string :=
  match l with
  | [] => EmptyString
  | [p] => p
  | p :: l => p +:+ String c (JoinByte l c)
  end.

(** The token that denotes a rule name, its array marker and its
    parameters: the inverse of [parseRule]. *)
Definition formatRule (ruleName : string) (validatesArray : bool)
    (params : list string) : string :=
  (if validatesArray then ">" else EmptyString)
  +:+ ruleName
  +:+ match params with
      | [] => EmptyString
      | _ => String ":" (JoinByte params ",")
      end.

(** * Properties *)

(** ** Strings *)

Lemma append_cons x (a b : string) : String x a +:+ b = String x (a +:+ b).
Proof. reflexivity. Qed.

Lemma append_assoc (a b c : string) : (a +:+ b) +:+ c = a +:+ (b +:+ c).
Proof.
  induction a as [|x a IH]; [reflexivity|]. rewrite !append_cons. congruence.
Qed.

Lemma append_empty_r (a : string) : a +:+ EmptyString = a.
Proof.
  induction a as [|x a IH]; [reflexivity|]. rewrite append_cons. congruence.
Qed.


Lemma CountByte_nonneg s c : 0 <= CountByte s c.
Proof.
  induction s as [|a s IH]; simpl; [lia|]. destruct (Ascii.eqb a c); lia.
Qed.

Lemma CountByte_app a b c : CountByte (a +:+ b) c = CountByte a c + CountByte b c.
Proof.
  induction a as [|x a IH]; [reflexivity|].
  rewrite append_cons. simpl. rewrite IH. lia.
Qed.

Lemma IndexByte_range s c :
  IndexByte s c = -1 \/ 0 <= IndexByte s c < Z.of_nat (String.length s).
Proof.
  induction s as [|a s IH]; [now left|].
  cbn [IndexByte String.length]. destruct (Ascii.eqb a c); [right; lia|].
  destruct IH as [->|IH]; [now left|].
  right. destruct (IndexByte s c <? 0) eqn:E; [apply Z.ltb_lt in E; lia|lia].
Qed.

Lemma IndexByte_absent s c : IndexByte s c = -1 <-> CountByte s c = 0.
Proof.
  induction s as [|a s IH]; [easy|].
  cbn [IndexByte CountByte]. pose proof (CountByte_nonneg s c).
  pose proof (IndexByte_range s c).
  destruct (Ascii.eqb a c); [lia|].
  destruct (IndexByte s c <? 0) eqn:E;
    [apply Z.ltb_lt in E | apply Z.ltb_ge in E]; lia.
Qed.

Lemma IndexByte_first a b c :
  CountByte a c = 0 ->
  IndexByte (a +:+ String c b) c = Z.of_nat (String.length a).
Proof.
  induction a as [|x a IH]; intros Hnone.
  - simpl. now rewrite Ascii.eqb_refl.
  - rewrite append_cons. cbn [IndexByte CountByte String.length] in *.
    pose proof (CountByte_nonneg a c).
    destruct (Ascii.eqb x c); [lia|]. rewrite IH by lia.
    destruct (Z.of_nat (String.length a) <? 0) eqn:E;
      [apply Z.ltb_lt in E|]; lia.
Qed.

Lemma substring_all s : String.substring 0 (String.length s) s = s.
Proof. induction s as [|a s IH]; simpl; congruence. Qed.

Lemma slice_to_app a b : slice_to (a +:+ b) (Z.of_nat (String.length a)) = a.
Proof.
  unfold slice_to. rewrite Nat2Z.id.
  induction a as [|x a IH]; [now destruct b|].
  rewrite append_cons. simpl. congruence.
Qed.

Lemma slice_from_app a b :
  slice_from (a +:+ b) (Z.of_nat (String.length a)) = b.
Proof.
  unfold slice_from. rewrite Nat2Z.id.
  induction a as [|x a IH].
  - simpl. rewrite Nat.sub_0_r. apply substring_all.
  - rewrite append_cons. simpl. exact IH.
Qed.

(** A string is cut at an index into the part before it and the part from
    it on. *)
Lemma slice_cut s (i : nat) :
  (i <= String.length s)%nat ->
  slice_to s (Z.of_nat i) +:+ slice_from s (Z.of_nat i) = s.
Proof.
  unfold slice_to, slice_from. rewrite Nat2Z.id. revert i.
  induction s as [|a s IH]; intros [|i] Hi; simpl in *; try lia.
  - reflexivity.
  - now rewrite substring_all.
  - rewrite append_cons. f_equal. apply IH. lia.
Qed.

Lemma IndexByte_cut s c :
  0 <= IndexByte s c ->
  s = slice_to s (IndexByte s c)
      +:+ String c (slice_from s (IndexByte s c + 1))
  /\ CountByte (slice_to s (IndexByte s c)) c = 0.
Proof.
  induction s as [|a s IH]; [simpl; lia|].
  cbn [IndexByte]. destruct (Ascii.eqb a c) eqn:Ea.
  - intros _. apply Ascii.eqb_eq in Ea. subst a.
    unfold slice_to, slice_from. simpl. rewrite Nat.sub_0_r, substring_all.
    split; reflexivity.
  - destruct (IndexByte s c <? 0) eqn:E; [lia|]. apply Z.ltb_ge in E.
    intros _. destruct (IH E) as [Hs Hcount].
    replace (IndexByte s c + 1) with (Z.of_nat (S (Z.to_nat (IndexByte s c))))
      by lia.
    unfold slice_to, slice_from in *. rewrite !Nat2Z.id.
    replace (Z.to_nat (Z.of_nat (S (Z.to_nat (IndexByte s c))) + 1))
      with (S (Z.to_nat (IndexByte s c + 1))) by lia.
    simpl. rewrite Ea. split; [|exact Hcount].
    rewrite append_cons. f_equal. exact Hs.
Qed.

Lemma SplitByte_cons s c : exists p ps, SplitByte s c = p :: ps.
Proof.
  induction s as [|a s (p & ps & IH)]; simpl; [eauto|].
  destruct (Ascii.eqb a c); [eauto|]. rewrite IH. eauto.
Qed.

Lemma SplitByte_length s c :
  Z.of_nat (length (SplitByte s c)) = 1 + CountByte s c.
Proof.
  induction s as [|a s IH]; [reflexivity|].
  cbn [SplitByte CountByte]. destruct (Ascii.eqb a c).
  - cbn [length]. lia.
  - destruct (SplitByte_cons s c) as (p & ps & Hs). rewrite Hs in *.
    cbn [length] in *. lia.
Qed.

Lemma SplitByte_pieces s c :
  Forall (fun p => CountByte p c = 0) (SplitByte s c).
Proof.
  induction s as [|a s IH]; simpl; [repeat constructor|].
  destruct (Ascii.eqb a c) eqn:Ea; [now constructor|].
  destruct (SplitByte s c) as [|p ps]; [repeat constructor; simpl; now rewrite Ea|].
  inversion IH as [|? ? Hp Hps]; subst. constructor; [|exact Hps].
  simpl. now rewrite Ea.
Qed.

Lemma JoinByte_cons p q l c :
  JoinByte (p :: q :: l) c = p +:+ String c (JoinByte (q :: l) c).
Proof. reflexivity. Qed.

Lemma JoinByte_SplitByte s c : JoinByte (SplitByte s c) c = s.
Proof.
  induction s as [|a s IH]; [reflexivity|].
  cbn [SplitByte]. destruct (SplitByte_cons s c) as (p & ps & Hs).
  rewrite Hs in *. destruct (Ascii.eqb a c) eqn:Ea.
  - apply Ascii.eqb_eq in Ea. subst a.
    rewrite JoinByte_cons, IH. reflexivity.
  - destruct ps as [|q ps].
    + simpl in *. congruence.
    + rewrite JoinByte_cons in *. rewrite append_cons. congruence.
Qed.

Lemma SplitByte_piece p c :
  CountByte p c = 0 -> SplitByte p c = [p].
Proof.
  induction p as [|a p IH]; [reflexivity|].
  cbn [CountByte SplitByte]. pose proof (CountByte_nonneg p c).
  destruct (Ascii.eqb a c); [lia|]. intros Hp. rewrite IH by lia. reflexivity.
Qed.

Lemma SplitByte_app p s c :
  CountByte p c = 0 ->
  SplitByte (p +:+ String c s) c = p :: SplitByte s c.
Proof.
  induction p as [|a p IH]; intros Hp.
  - simpl. now rewrite Ascii.eqb_refl.
  - rewrite append_cons. cbn [CountByte SplitByte] in *.
    pose proof (CountByte_nonneg p c).
    destruct (Ascii.eqb a c); [lia|]. rewrite IH by lia. reflexivity.
Qed.

Lemma SplitByte_JoinByte ps c :
  ps <> [] -> Forall (fun p => CountByte p c = 0) ps ->
  SplitByte (JoinByte ps c) c = ps.
Proof.
  intros Hne Hps. induction Hps as [|p ps Hp Hps IH]; [congruence|].
  destruct ps as [|q ps].
  - simpl. now apply SplitByte_piece.
  - rewrite JoinByte_cons, SplitByte_app by exact Hp.
    rewrite IH by congruence. reflexivity.
Qed.

Section Properties.
Context `{Collaborators}.
Local Open Scope go_scope.

(** ** Rule Token Parser *)

(** A token without a separator and with a comma is refused, whatever the
    registry holds. *)
Lemma parseRule_comma reg rule :
  IndexByte rule ":" = -1 -> 0 < CountByte rule "," ->
  parseRule reg rule = Panicked (InvalidRule rule).
Proof.
  intros Hidx Hcnt. unfold parseRule. rewrite Hidx. simpl.
  destruct (CountByte rule "," >? 0) eqn:E; [reflexivity|].
  rewrite Z.gtb_ltb in E. apply Z.ltb_ge in E. lia.
Qed.

(** A successful parse names a registered rule. *)
Lemma parseRule_registered reg rule ruleName validatesArray params :
  parseRule reg rule = Ok (ruleName, validatesArray, params) ->
  is_Some (validationRules reg !! ruleName).
Proof.
  unfold parseRule.
  destruct (if IndexByte rule ":" =? -1 then _ else _) as [[name ps]|p];
    [|discriminate].
  destruct name as [|c tail]; [discriminate|].
  destruct (Ascii.eqb c ">");
    match goal with
    | |- context [validationRules reg !! ?n] =>
        destruct (validationRules reg !! n) eqn:E; [|discriminate]
    end; intros [= <- _ _]; rewrite E; eauto.
Qed.

(** C4: parsing min:5 yields the name min, the parameter list [5] and no
    array marker; parsing >min:3 yields min, [3] and the array marker;
    parsing invalid,rule (a comma and no colon) and invalidrule (a name the
    registry does not hold) both panic. *)
Theorem parseRule_examples :
  parseRule init "min:5" = Ok ("min", false, ["5"])
  /\ parseRule init ">min:3" = Ok ("min", true, ["3"])
  /\ parseRule init "invalid,rule" = Panicked (InvalidRule "invalid,rule")
  /\ parseRule init "invalidrule" = Panicked (RuleDoesNotExist "invalidrule").
Proof. repeat split; vm_compute; reflexivity. Qed.

(** ** Message Composer *)


Lemma langEntry_shape reg rule value inArray :
  langEntry reg rule value inArray
  = "validation.rules." +:+ rule
    +:+ (if isTypeDependent reg rule then "." +:+ getFieldType value else EmptyString)
    +:+ (if inArray then ".array" else EmptyString).
Proof.
  unfold langEntry.
  destruct (isTypeDependent reg rule), inArray;
    rewrite ?append_assoc, ?append_empty_r; reflexivity.
Qed.


(** ** Rule Registry *)

Lemma AddRule_exists reg name typeDependentMessage rule :
  is_Some (validationRules reg !! name) ->
  AddRule name typeDependentMessage rule reg
  = (Panicked (RuleAlreadyExists name), reg).
Proof. intros [r Hr]. unfold AddRule. now rewrite Hr. Qed.

Lemma AddRule_fresh reg name typeDependentMessage rule reg' :
  AddRule name typeDependentMessage rule reg = (Ok tt, reg') ->
  validationRules reg !! name = None
  /\ validationRules reg' = <[name := rule]> (validationRules reg).
Proof.
  unfold AddRule. destruct (validationRules reg !! name); [discriminate|].
  intros [= <-]. split; reflexivity.
Qed.

(** C8: registering a rule under a name that is already registered panics
    on the second call, and the first registration stays: the registry the
    failed call leaves behind is the one it found, so the name still
    resolves to the first rule and still parses. *)
Theorem AddRule_twice reg reg1 name td1 td2 (rule1 rule2 : Rule) :
  AddRule name td1 rule1 reg = (Ok tt, reg1) ->
  AddRule name td2 rule2 reg1 = (Panicked (RuleAlreadyExists name), reg1)
  /\ validationRules (AddRule name td2 rule2 reg1).2 !! name = Some rule1
  /\ isTypeDependent (AddRule name td2 rule2 reg1).2 name
     = isTypeDependent reg1 name.
Proof.
  intros Hfirst. apply AddRule_fresh in Hfirst as [_ Hrules].
  assert (Hin : validationRules reg1 !! name = Some rule1).
  { rewrite Hrules. apply lookup_insert_eq. }
  rewrite (AddRule_exists reg1 name td2 rule2) by (rewrite Hin; eauto).
  auto.
Qed.

(** A built-in name collides at the first attempt, as in [TestAddRule]. *)
Lemma AddRule_required rule :
  (AddRule "required" false rule init).1
  = Panicked (RuleAlreadyExists "required").
Proof. reflexivity. Qed.

(** ** Validate on a nil data tree *)

(** C10: on a nil data tree [Validate] does not panic and runs no rule,
    whatever the registry, the rule set and the language: it returns the one
    entry error with one message, Malformed JSON when the Content-Type
    header is exactly application/json and Malformed request otherwise. *)
Theorem Validate_nil reg request rules language :
  let message :=
    if String.eqb (Header_Get (Header request) "Content-Type")
         "application/json"
    then "Malformed JSON" else "Malformed request" in
  Validate reg request rules language None
  = (Ok {[ "error" := [message] ]}, None)
  /\ (Header_Get (Header request) "Content-Type" = "application/json"
      <-> message = "Malformed JSON")
  /\ (Header_Get (Header request) "Content-Type" <> "application/json"
      <-> message = "Malformed request")
  /\ size ({[ "error" := [message] ]} : Errors) = 1%nat.
Proof.
  cbv zeta. split; [reflexivity|].
  destruct (String.eqb _ _) eqn:E.
  - apply String.eqb_eq in E.
    split; [tauto|]. split; [|apply map_size_singleton].
    split; [intros Hne; now destruct Hne | discriminate].
  - apply String.eqb_neq in E.
    split; [|split; [tauto|apply map_size_singleton]].
    split; [intros Heq; now destruct E | discriminate].
Qed.

(** ** Validation Executor: one field *)

Lemma validate_singleton reg request fieldName field language data :
  validate reg request {[ fieldName := field ]} language data
  = validateField reg
      (String.eqb (Header_Get (Header request) "Content-Type")
         "application/json")
      language fieldName field ∅ data.
Proof.
  unfold validate. rewrite map_to_list_singleton. simpl.
  unfold bind. destruct (validateField _ _ _ _ _ _ _) as [[e|p] d]; reflexivity.
Qed.

(** The nullable token: on a nil value nothing after it runs. *)
Lemma validateRules_nullable reg language fieldName field errors data :
  isNil (index data fieldName) = true ->
  validateRules reg language fieldName ("nullable" :: field) errors data
  = (Ok errors, data).
Proof. intros Hnil. simpl. unfold bind, get. now rewrite Hnil. Qed.

(** On a value that is not nil the token is passed over. *)
Lemma validateRules_nullable_present reg language fieldName field errors data :
  isNil (index data fieldName) = false ->
  validateRules reg language fieldName ("nullable" :: field) errors data
  = validateRules reg language fieldName field errors data.
Proof. intros Hnil. simpl. unfold bind, get. now rewrite Hnil. Qed.







(** ** What the engine itself does to the key of a field *)









(** ** Array-wise rules *)

Lemma setElement_app fieldName elem done x y rest (data : DataTree) :
  data !! fieldName = Some (VSlice elem (done ++ x :: rest)) ->
  setElement fieldName (length done) y data
  = <[fieldName := VSlice elem (done ++ y :: rest)]> data.
Proof.
  intros Hdata. unfold setElement. rewrite Hdata.
  rewrite insert_app_r_alt by lia. now rewrite Nat.sub_diag.
Qed.

(** The elements that pass are visited in order and written back one by
    one; the loop then goes on with the rest. *)
Lemma validateElements_prefix reg ruleName r fieldName params elem pre pre'
    rest :
  validationRules reg !! ruleName = Some r ->
  Forall2 (passes r fieldName params elem) pre pre' ->
  forall done (data : DataTree),
    data !! fieldName = Some (VSlice elem (done ++ pre ++ rest)) ->
    validateElements reg ruleName fieldName params elem (length done)
      (pre ++ rest) data
    = validateElements reg ruleName fieldName params elem
        (length (done ++ pre')) rest
        (<[fieldName := VSlice elem (done ++ pre' ++ rest)]> data).
Proof.
  intros Hr Hpre.
  induction Hpre as [|x y pre pre' (tmpData & Hrun & Hback & Hset) Hpre IH];
    intros done data Hdata.
  - rewrite app_nil_r. simpl. now rewrite insert_id.
  - simpl. rewrite Hr, Hrun, Hback, Hset. unfold bind, modify.
    rewrite (setElement_app fieldName elem done x y (pre ++ rest) data Hdata).
    replace (S (length done)) with (length (done ++ [y]))
      by (rewrite length_app; simpl; lia).
    rewrite IH.
    + rewrite insert_insert_eq. now rewrite <- !app_assoc.
    + rewrite lookup_insert_eq. now rewrite <- app_assoc.
Qed.

(** The loop stops at the first element that fails: what follows it is not
    looked at. *)
Lemma validateRuleInArray_first_failure reg ruleName r fieldName params elem
    pre pre' v post (data : DataTree) :
  validationRules reg !! ruleName = Some r ->
  GetFieldType (index data fieldName) = "array" ->
  data !! fieldName = Some (VSlice elem (pre ++ v :: post)) ->
  Forall2 (passes r fieldName params elem) pre pre' ->
  fails r fieldName params v ->
  validateRuleInArray reg ruleName fieldName params data
  = (Ok (Some {| rtype := Some elem; rvalue := v |}),
     <[fieldName := VSlice elem (pre' ++ v :: post)]> data).
Proof.
  intros Hr Harray Hdata Hpre Hfail.
  unfold validateRuleInArray. rewrite Harray. simpl.
  unfold index. rewrite Hdata. simpl.
  pose proof (validateElements_prefix reg ruleName r fieldName params elem
                pre pre' (v :: post) Hr Hpre [] data Hdata) as Hloop.
  simpl in Hloop. rewrite Hloop.
  simpl. rewrite Hr. unfold fails in Hfail.
  destruct (r fieldName v params _) as [[[|]|p] tmpData];
    simpl in Hfail; try discriminate.
  reflexivity.
Qed.

(** When every element passes, nothing is reported. *)
Lemma validateRuleInArray_all_pass reg ruleName r fieldName params elem
    l l' (data : DataTree) :
  validationRules reg !! ruleName = Some r ->
  GetFieldType (index data fieldName) = "array" ->
  data !! fieldName = Some (VSlice elem l) ->
  Forall2 (passes r fieldName params elem) l l' ->
  validateRuleInArray reg ruleName fieldName params data
  = (Ok None, <[fieldName := VSlice elem l']> data).
Proof.
  intros Hr Harray Hdata Hpass.
  unfold validateRuleInArray. rewrite Harray. simpl.
  unfold index. rewrite Hdata. simpl.
  rewrite <- (app_nil_r l) in Hdata |- *.
  pose proof (validateElements_prefix reg ruleName r fieldName params elem
                l l' [] Hr Hpass [] data Hdata) as Hloop.
  simpl in Hloop. rewrite Hloop.
  simpl. now rewrite app_nil_r.
Qed.

Lemma parseRule_array_not_nullable reg rule ruleName params :
  parseRule reg rule = Ok (ruleName, true, params) ->
  String.eqb rule "nullable" = false.
Proof.
  intros Hparse. destruct (String.eqb rule "nullable") eqn:E; [|reflexivity].
  apply String.eqb_eq in E. subst rule. exfalso. revert Hparse.
  unfold parseRule. simpl.
  destruct (validationRules reg !! "nullable"); discriminate.
Qed.

(** An array-wise token, by the outcome of [validateRuleInArray]: a panic
    ends the validation, a failing element adds one message to the field
    and no element adds none. *)
Lemma validateRules_array reg language fieldName rule ruleName params field
    errors data :
  parseRule reg rule = Ok (ruleName, true, params) ->
  validateRules reg language fieldName (rule :: field) errors data
  = match validateRuleInArray reg ruleName fieldName params data with
    | (Panicked p, data) => (Panicked p, data)
    | (Ok (Some errorValue), data) =>
        validateRules reg language fieldName field
          (appendError errors fieldName
             (processPlaceholders fieldName ruleName params
                (getMessage reg ruleName errorValue language true) language))
          data
    | (Ok None, data) =>
        validateRules reg language fieldName field errors data
    end.
Proof.
  intros Hparse. simpl.
  rewrite (parseRule_array_not_nullable reg rule ruleName params Hparse).
  rewrite Hparse. unfold bind.
  destruct (validateRuleInArray reg ruleName fieldName params data)
    as [[[errorValue|]|p] data']; reflexivity.
Qed.

Lemma appendError_lookup errors fieldName message :
  appendError errors fieldName message !! fieldName
  = Some (default [] (errors !! fieldName) ++ [message])%list.
Proof. unfold appendError. apply lookup_insert_eq. Qed.

Lemma appendError_other errors fieldName message key :
  fieldName <> key ->
  appendError errors fieldName message !! key = errors !! key.
Proof. intros Hne. unfold appendError. now apply lookup_insert_ne. Qed.

(** A scalar token hands the rule function the field name, the current
    value of the field, the parameters and the data tree itself. *)
Lemma validateRules_scalar reg language fieldName rule ruleName params
    (r : Rule) field errors data :
  String.eqb rule "nullable" = false ->
  parseRule reg rule = Ok (ruleName, false, params) ->
  validationRules reg !! ruleName = Some r ->
  validateRules reg language fieldName (rule :: field) errors data
  = match r fieldName (index data fieldName) params data with
    | (Panicked p, data) => (Panicked p, data)
    | (Ok true, data) =>
        validateRules reg language fieldName field errors data
    | (Ok false, data) =>
        validateRules reg language fieldName field
          (appendError errors fieldName
             (processPlaceholders fieldName ruleName params
                (getMessage reg ruleName (ValueOf (index data fieldName))
                   language false) language))
          data
    end.
Proof.
  intros Hmarker Hparse Hr. simpl. rewrite Hmarker, Hparse.
  unfold bind, get. rewrite Hr.
  destruct (r fieldName (index data fieldName) params data)
    as [[[|]|p] data']; reflexivity.
Qed.

(** ** The scenarios of the test suite *)

Lemma validate_nullField_nil request language :
  validate init request
    {[ "nullField" := ["required"; "nullable"; "numeric"] ]} language
    {[ "nullField" := VNil ]}
  = (Ok ∅, {[ "nullField" := VNil ]}).
Proof.
  rewrite validate_singleton.
  destruct (String.eqb _ _); vm_compute; reflexivity.
Qed.

Lemma convertArray_not_array isJSON fieldName field data :
  isArray field = false ->
  convertArray isJSON fieldName field data = (Ok tt, data).
Proof.
  intros Hfield. unfold convertArray. rewrite Hfield.
  now destruct (negb isJSON).
Qed.

(** A field that is there and does not ask for an array: its rules run on
    the tree as given, provided the required check lets it through. *)
Lemma validateField_present reg isJSON language fieldName field errors data :
  isNil (index data fieldName) = false -> isArray field = false ->
  (isRequired field = false ->
   validateRequired fieldName (index data fieldName) [] data
   = (Ok true, data)) ->
  validateField reg isJSON language fieldName field errors data
  = validateRules reg language fieldName field errors data.
Proof.
  intros Hnil Harray Hpresent.
  unfold validateField, bind, get, modify, ret.
  rewrite Hnil, andb_false_r.
  destruct (isRequired field); simpl.
  - now rewrite convertArray_not_array.
  - rewrite Hpresent by reflexivity. simpl.
    now rewrite convertArray_not_array.
Qed.

Lemma validateNumeric_unparsed fieldName s params data :
  ParseFloat s = None ->
  validateNumeric fieldName (VString s) params data = (Ok false, data).
Proof. intros Hs. unfold validateNumeric. now rewrite Hs. Qed.

Lemma validateMin_string fieldName s param min data :
  ParseFloat param = Some min ->
  validateMin fieldName (VString s) [param] data
  = (Ok (PrimFloat.leb min (float64 (Z.of_nat (String.length s)))), data).
Proof.
  intros Hparam. unfold validateMin, RequireParametersCount, bind, ret.
  simpl. now rewrite Hparam.
Qed.

Lemma validate_nullField_test request language :
  ParseFloat "test" = None ->
  validate init request
    {[ "nullField" := ["required"; "nullable"; "numeric"] ]} language
    {[ "nullField" := VString "test" ]}
  = (Ok {[ "nullField" :=
             [processPlaceholders "nullField" "numeric" []
                (lang_Get language "validation.rules.numeric") language] ]},
     {[ "nullField" := VString "test" ]}).
Proof.
  intros Htest. rewrite validate_singleton.
  rewrite validateField_present by (reflexivity || discriminate).
  rewrite (validateRules_scalar init language "nullField" "required"
             "required" [] validateRequired) by reflexivity.
  replace (validateRequired "nullField"
             (index {[ "nullField" := VString "test" ]} "nullField") []
             {[ "nullField" := VString "test" ]})
    with (Ok true, ({[ "nullField" := VString "test" ]} : DataTree))
    by reflexivity.
  rewrite validateRules_nullable_present by reflexivity.
  rewrite (validateRules_scalar init language "nullField" "numeric"
             "numeric" [] validateNumeric) by reflexivity.
  replace (index {[ "nullField" := VString "test" ]} "nullField")
    with (VString "test") by reflexivity.
  rewrite validateNumeric_unparsed by exact Htest.
  reflexivity.
Qed.

Lemma passes_min fieldName s :
  ParseFloat "3" = Some 3%float ->
  PrimFloat.leb 3 (float64 (Z.of_nat (String.length s))) = true ->
  passes validateMin fieldName ["3"] TString (VString s) (VString s).
Proof.
  intros Hthree Hlen. exists {[ fieldName := VString s ]}.
  rewrite (validateMin_string fieldName s "3" 3%float) by exact Hthree.
  rewrite Hlen. split; [reflexivity|]. split; [|reflexivity].
  unfold index. now rewrite lookup_singleton_eq.
Qed.

Lemma fails_min fieldName s :
  ParseFloat "3" = Some 3%float ->
  PrimFloat.leb 3 (float64 (Z.of_nat (String.length s))) = false ->
  fails validateMin fieldName ["3"] (VString s).
Proof.
  intros Hthree Hlen. unfold fails.
  rewrite (validateMin_string fieldName s "3" 3%float) by exact Hthree.
  now rewrite Hlen.
Qed.

Lemma validate_min_pass request language :
  ParseFloat "3" = Some 3%float ->
  validate init request {[ "string" := [">min:3"] ]} language
    {[ "string" := VSlice TString [VString "hello"; VString "world"] ]}
  = (Ok ∅,
     {[ "string" := VSlice TString [VString "hello"; VString "world"] ]}).
Proof.
  intros Hthree. rewrite validate_singleton.
  rewrite validateField_present by (reflexivity || discriminate).
  rewrite (validateRules_array init language "string" ">min:3" "min" ["3"])
    by reflexivity.
  rewrite (validateRuleInArray_all_pass init "min" validateMin "string" ["3"]
             TString [VString "hello"; VString "world"]
             [VString "hello"; VString "world"]);
    [reflexivity|reflexivity|reflexivity|reflexivity|].
  repeat constructor; now apply passes_min.
Qed.

Lemma validate_min_fail request language :
  ParseFloat "3" = Some 3%float ->
  validate init request {[ "string" := [">min:3"] ]} language
    {[ "string" := VSlice TString [VString "hi"; VString ","; VString "there"] ]}
  = (Ok {[ "string" :=
             [processPlaceholders "string" "min" ["3"]
                (lang_Get language "validation.rules.min.string.array")
                language] ]},
     {[ "string" :=
          VSlice TString [VString "hi"; VString ","; VString "there"] ]}).
Proof.
  intros Hthree. rewrite validate_singleton.
  rewrite validateField_present by (reflexivity || discriminate).
  rewrite (validateRules_array init language "string" ">min:3" "min" ["3"])
    by reflexivity.
  rewrite (validateRuleInArray_first_failure init "min" validateMin "string"
             ["3"] TString [] [] (VString "hi")
             [VString ","; VString "there"]);
    [reflexivity|reflexivity|reflexivity|reflexivity|constructor|].
  now apply fails_min.
Qed.

(** C1: with the rule list required, nullable, numeric, a field that is
    present with value nil is kept as it is and no error is recorded, the
    nullable token ending the rules of the field as soon as it meets the
    nil value; with the value test the key stays and the field gets exactly
    one message, that of the numeric rule. *)
Theorem nullable_consumes_nil request language :
  ParseFloat "test" = None ->
  (forall reg language' fieldName field errors data,
      isNil (index data fieldName) = true ->
      validateRules reg language' fieldName ("nullable" :: field) errors data
      = (Ok errors, data))
  /\ validate init request
       {[ "nullField" := ["required"; "nullable"; "numeric"] ]} language
       {[ "nullField" := VNil ]}
     = (Ok ∅, {[ "nullField" := VNil ]})
  /\ validate init request
       {[ "nullField" := ["required"; "nullable"; "numeric"] ]} language
       {[ "nullField" := VString "test" ]}
     = (Ok {[ "nullField" :=
                [processPlaceholders "nullField" "numeric" []
                   (getMessage init "numeric" (ValueOf (VString "test"))
                      language false) language] ]},
        {[ "nullField" := VString "test" ]}).
Proof.
  intros Htest. split; [|split].
  - intros reg language' fieldName field errors data.
    apply validateRules_nullable.
  - apply validate_nullField_nil.
  - now apply validate_nullField_test.
Qed.

(** X23: an array-wise token on a field whose value is not an array
    panics.  On an array, as long as every element the rule accepts leaves
    under the field name a value the slice can take back, the rule runs on
    the elements in order: the elements before the first failing one are
    written back, the failing one ends the loop, and the field gets one
    message for the token, whatever the elements after it; when no element
    fails the field gets none.  The array hello, world passes >min:3 and
    the array hi, comma, there gets exactly one message. *)
Theorem array_rule reg request language fieldName rule ruleName params field
    errors (data : DataTree) :
  parseRule reg rule = Ok (ruleName, true, params) ->
  ParseFloat "3" = Some 3%float ->
  (GetFieldType (index data fieldName) <> "array" ->
   validateRuleInArray reg ruleName fieldName params data
   = (Panicked
        (NonArrayField fieldName (GetFieldType (index data fieldName))),
      data)
   /\ validateRules reg language fieldName (rule :: field) errors data
      = (Panicked
           (NonArrayField fieldName (GetFieldType (index data fieldName))),
         data))
  /\ validateRuleInArray init "required" "string" []
       {[ "string" := VString "hi" ]}
     = (Panicked (NonArrayField "string" "string"),
        {[ "string" := VString "hi" ]})
  /\ (forall r elem pre pre' v post,
        validationRules reg !! ruleName = Some r ->
        GetFieldType (index data fieldName) = "array" ->
        data !! fieldName = Some (VSlice elem (pre ++ v :: post)) ->
        Forall2 (passes r fieldName params elem) pre pre' ->
        fails r fieldName params v ->
        validateRules reg language fieldName (rule :: field) errors data
        = validateRules reg language fieldName field
            (appendError errors fieldName
               (processPlaceholders fieldName ruleName params
                  (getMessage reg ruleName
                     {| rtype := Some elem; rvalue := v |} language true)
                  language))
            (<[fieldName := VSlice elem (pre' ++ v :: post)]> data))
  /\ (forall r elem l l',
        validationRules reg !! ruleName = Some r ->
        GetFieldType (index data fieldName) = "array" ->
        data !! fieldName = Some (VSlice elem l) ->
        Forall2 (passes r fieldName params elem) l l' ->
        validateRules reg language fieldName (rule :: field) errors data
        = validateRules reg language fieldName field errors
            (<[fieldName := VSlice elem l']> data))
  /\ validate init request {[ "string" := [">min:3"] ]} language
       {[ "string" := VSlice TString [VString "hello"; VString "world"] ]}
     = (Ok ∅,
        {[ "string" := VSlice TString [VString "hello"; VString "world"] ]})
  /\ validate init request {[ "string" := [">min:3"] ]} language
       {[ "string" :=
            VSlice TString [VString "hi"; VString ","; VString "there"] ]}
     = (Ok {[ "string" :=
                [processPlaceholders "string" "min" ["3"]
                   (getMessage init "min"
                      {| rtype := Some TString; rvalue := VString "hi" |}
                      language true) language] ]},
        {[ "string" :=
             VSlice TString [VString "hi"; VString ","; VString "there"] ]}).
Proof.
  intros Hparse Hthree. split; [|split; [|split; [|split; [|split]]]].
  - intros Hkind.
    assert (Hpanic : validateRuleInArray reg ruleName fieldName params data
                     = (Panicked
                          (NonArrayField fieldName
                             (GetFieldType (index data fieldName))), data)).
    { unfold validateRuleInArray.
      apply String.eqb_neq in Hkind. now rewrite Hkind. }
    split; [exact Hpanic|].
    rewrite (validateRules_array reg language fieldName rule ruleName params
               field errors data Hparse).
    now rewrite Hpanic.
  - reflexivity.
  - intros r elem pre pre' v post Hr Harray Hdata Hpre Hfail.
    rewrite (validateRules_array reg language fieldName rule ruleName params
               field errors data Hparse).
    now rewrite (validateRuleInArray_first_failure reg ruleName r fieldName
                   params elem pre pre' v post data Hr Harray Hdata Hpre Hfail).
  - intros r elem l l' Hr Harray Hdata Hpass.
    rewrite (validateRules_array reg language fieldName rule ruleName params
               field errors data Hparse).
    now rewrite (validateRuleInArray_all_pass reg ruleName r fieldName params
                   elem l l' data Hr Harray Hdata Hpass).
  - now apply validate_min_pass.
  - now apply validate_min_fail.
Qed.

(** The write-back of an accepted element panics when the rule has left
    under the field name a value the slice cannot take. *)
Lemma validateRuleInArray_set_panics reg ruleName (r : Rule) fieldName params
    elem pre pre' x post tmpData (data : DataTree) :
  validationRules reg !! ruleName = Some r ->
  GetFieldType (index data fieldName) = "array" ->
  data !! fieldName = Some (VSlice elem (pre ++ x :: post)) ->
  Forall2 (passes r fieldName params elem) pre pre' ->
  r fieldName x params {[ fieldName := x ]} = (Ok true, tmpData) ->
  settable elem (index tmpData fieldName) = false ->
  validateRuleInArray reg ruleName fieldName params data
  = (Panicked (RuntimeError "reflect.Value.Set"),
     <[fieldName := VSlice elem (pre' ++ x :: post)]> data).
Proof.
  intros Hr Harray Hdata Hpre Hrun Hset.
  unfold validateRuleInArray. rewrite Harray. simpl.
  replace (index data fieldName) with (VSlice elem (pre ++ x :: post))
    by (unfold index; now rewrite Hdata).
  pose proof (validateElements_prefix reg ruleName r fieldName params elem
                pre pre' (x :: post) Hr Hpre [] data Hdata) as Hloop.
  simpl in Hloop. rewrite Hloop.
  simpl. now rewrite Hr, Hrun, Hset.
Qed.

Lemma validateNumeric_parsed fieldName s floatVal params data :
  ParseFloat s = Some floatVal ->
  validateNumeric fieldName (VString s) params data
  = (Ok true, <[fieldName := VFloat64 floatVal]> data).
Proof. intros Hs. unfold validateNumeric. now rewrite Hs. Qed.

Lemma validateMin_nil fieldName param min data :
  ParseFloat param = Some min ->
  validateMin fieldName VNil [param] data = (Ok true, data).
Proof.
  intros Hparam. unfold validateMin, RequireParametersCount, bind, ret.
  simpl. now rewrite Hparam.
Qed.

(** C2, where the code departs from it: an element that the rule accepts
    and replaces by a value the slice cannot take back, a value of another
    type than the elements or nil, makes the write-back of
    [validateRuleInArray] panic.  The elements after it are not checked and
    the field gets no message, whatever they are.  So the array 1, x of
    strings under >numeric is not given the one message of its failing
    element x: the accepted 1 has become a [float64] and the validation
    panics; and an array of a JSON body that starts with null panics under
    >min:3. *)
Theorem array_rule_write_back reg request language fieldName rule ruleName
    params field errors (data : DataTree) :
  parseRule reg rule = Ok (ruleName, true, params) ->
  (forall (r : Rule) elem pre pre' x post tmpData,
      validationRules reg !! ruleName = Some r ->
      GetFieldType (index data fieldName) = "array" ->
      data !! fieldName = Some (VSlice elem (pre ++ x :: post)) ->
      Forall2 (passes r fieldName params elem) pre pre' ->
      r fieldName x params {[ fieldName := x ]} = (Ok true, tmpData) ->
      settable elem (index tmpData fieldName) = false ->
      validateRules reg language fieldName (rule :: field) errors data
      = (Panicked (RuntimeError "reflect.Value.Set"),
         <[fieldName := VSlice elem (pre' ++ x :: post)]> data))
  /\ (forall floatVal,
        ParseFloat "1" = Some floatVal ->
        validate init request {[ "string" := [">numeric"] ]} language
          {[ "string" := VSlice TString [VString "1"; VString "x"] ]}
        = (Panicked (RuntimeError "reflect.Value.Set"),
           {[ "string" := VSlice TString [VString "1"; VString "x"] ]}))
  /\ (forall min,
        ParseFloat "3" = Some min ->
        validate init request {[ "tags" := [">min:3"] ]} language
          {[ "tags" := VSlice TInterface [VNil; VString "hi"] ]}
        = (Panicked (RuntimeError "reflect.Value.Set"),
           {[ "tags" := VSlice TInterface [VNil; VString "hi"] ]})).
Proof.
  intros Hparse. split; [|split].
  - intros r elem pre pre' x post tmpData Hr Harray Hdata Hpre Hrun Hset.
    rewrite (validateRules_array reg language fieldName rule ruleName params
               field errors data Hparse).
    now rewrite (validateRuleInArray_set_panics reg ruleName r fieldName
                   params elem pre pre' x post tmpData data Hr Harray Hdata
                   Hpre Hrun Hset).
  - intros floatVal Hone. rewrite validate_singleton.
    rewrite validateField_present by (reflexivity || discriminate).
    rewrite (validateRules_array init language "string" ">numeric" "numeric"
               []) by reflexivity.
    rewrite (validateRuleInArray_set_panics init "numeric" validateNumeric
               "string" [] TString [] [] (VString "1") [VString "x"]
               (<["string" := VFloat64 floatVal]>
                  {[ "string" := VString "1" ]}));
      [reflexivity|reflexivity|reflexivity|reflexivity|constructor| |].
    + now apply validateNumeric_parsed.
    + unfold index. now rewrite lookup_insert_eq.
  - intros min Hthree. rewrite validate_singleton.
    rewrite validateField_present by (reflexivity || discriminate).
    rewrite (validateRules_array init language "tags" ">min:3" "min" ["3"])
      by reflexivity.
    rewrite (validateRuleInArray_set_panics init "min" validateMin "tags"
               ["3"] TInterface [] [] VNil [VString "hi"]
               {[ "tags" := VNil ]});
      [reflexivity|reflexivity|reflexivity|reflexivity|constructor| |].
    + now apply (validateMin_nil "tags" "3" min).
    + reflexivity.
Qed.

(** ** What a rule function is handed *)

(** An element check hands the rule function a map with the one entry of
    the field, holding the element. *)
Lemma validateElements_cons reg ruleName (r : Rule) fieldName params elem i
    value rest (data : DataTree) :
  validationRules reg !! ruleName = Some r ->
  validateElements reg ruleName fieldName params elem i (value :: rest) data
  = match r fieldName value params {[ fieldName := value ]} with
    | (Panicked p, _) => (Panicked p, data)
    | (Ok false, _) =>
        (Ok (Some {| rtype := Some elem; rvalue := value |}), data)
    | (Ok true, tmpData) =>
        if settable elem (index tmpData fieldName)
        then validateElements reg ruleName fieldName params elem (S i) rest
               (setElement fieldName i (index tmpData fieldName) data)
        else (Panicked (RuntimeError "reflect.Value.Set"), data)
    end.
Proof.
  intros Hr. simpl. rewrite Hr.
  destruct (r fieldName value params _) as [[[|]|p] tmpData]; try reflexivity.
  destruct (settable elem _); reflexivity.
Qed.

(** The outcome of the loop depends on the elements only: not on the tree,
    and not on the index. *)
Lemma validateElements_outcome reg ruleName fieldName params elem rest :
  forall i j (data1 data2 : DataTree),
    (validateElements reg ruleName fieldName params elem i rest data1).1
    = (validateElements reg ruleName fieldName params elem j rest data2).1.
Proof.
  induction rest as [|value rest IH]; intros i j data1 data2; simpl.
  - reflexivity.
  - destruct (validationRules reg !! ruleName) as [rule|]; [|reflexivity].
    destruct (rule fieldName value params _) as [[[|]|p] tmpData];
      try reflexivity.
    destruct (settable elem _); [|reflexivity].
    unfold bind, modify. apply IH.
Qed.

(** C9, as the code has it: a scalar check hands the rule function the
    full data tree; an element check hands it a fresh map with the one
    entry of the field, so its outcome is the same for all trees that agree
    on the field, and no index is passed: the outcome of the loop is the
    same from whatever index it is started. *)
Theorem rule_contexts reg language fieldName rule ruleName params
    (r : Rule) field errors (data : DataTree) :
  validationRules reg !! ruleName = Some r ->
  (String.eqb rule "nullable" = false ->
   parseRule reg rule = Ok (ruleName, false, params) ->
   validateRules reg language fieldName (rule :: field) errors data
   = match r fieldName (index data fieldName) params data with
     | (Panicked p, data) => (Panicked p, data)
     | (Ok true, data) =>
         validateRules reg language fieldName field errors data
     | (Ok false, data) =>
         validateRules reg language fieldName field
           (appendError errors fieldName
              (processPlaceholders fieldName ruleName params
                 (getMessage reg ruleName (ValueOf (index data fieldName))
                    language false) language))
           data
     end)
  /\ (forall elem i value rest,
        validateElements reg ruleName fieldName params elem i (value :: rest)
          data
        = match r fieldName value params {[ fieldName := value ]} with
          | (Panicked p, _) => (Panicked p, data)
          | (Ok false, _) =>
              (Ok (Some {| rtype := Some elem; rvalue := value |}), data)
          | (Ok true, tmpData) =>
              if settable elem (index tmpData fieldName)
              then validateElements reg ruleName fieldName params elem (S i)
                     rest
                     (setElement fieldName i (index tmpData fieldName) data)
              else (Panicked (RuntimeError "reflect.Value.Set"), data)
          end)
  /\ (forall data' : DataTree,
        data' !! fieldName = data !! fieldName ->
        (validateRuleInArray reg ruleName fieldName params data').1
        = (validateRuleInArray reg ruleName fieldName params data).1)
  /\ (forall elem rest i j (data1 data2 : DataTree),
        (validateElements reg ruleName fieldName params elem i rest data1).1
        = (validateElements reg ruleName fieldName params elem j rest data2).1).
Proof.
  intros Hr. split; [|split; [|split]].
  - intros Hmarker Hparse. now apply validateRules_scalar.
  - intros elem i value rest. now apply validateElements_cons.
  - intros data' Hsame. unfold validateRuleInArray, index. rewrite Hsame.
    destruct (negb _); [reflexivity|].
    destruct (default VNil (data !! fieldName)); try reflexivity.
    apply validateElements_outcome.
  - intros elem rest i j data1 data2. apply validateElements_outcome.
Qed.

(** * Further properties of the engine *)

(** ** Semantic types *)

(** X1: the semantic type by Go type.  The kind name interface starts with int,
    so a value reached through an interface-typed slot is reported numeric;
    uintptr is left out of the numeric kinds by name; a slice is a file
    list exactly when its element type is filesystem.File. *)
Theorem getFieldType_by_type (rv : reflectValue) :
  getFieldType rv
  = match rtype rv with
    | Some (TInt | TInt32 | TUint | TFloat64 | TInterface) => "numeric"
    | Some TString => "string"
    | Some (TSlice TFile) => "file"
    | Some (TSlice _) => "array"
    | Some (TBool | TUintptr | TMap | TTime | TFile) | None => "unsupported"
    end.
Proof.
  destruct rv as [[t|] v]; [|reflexivity].
  destruct t as [| | | | | | | | | | |e]; try reflexivity.
  destruct e; reflexivity.
Qed.

(** X2: [GetFieldType] sees the dynamic type: it never answers numeric for a
    string, and answers array exactly for the slices that do not hold
    files. *)
Theorem GetFieldType_array (v : value) :
  GetFieldType v = "array"
  <-> exists elem l, v = VSlice elem l /\ elem <> TFile.
Proof.
  unfold GetFieldType. split.
  - destruct v as [| | | | | | | | | |elem l|]; try discriminate.
    intros Harray. exists elem, l. split; [reflexivity|].
    intros ->. discriminate.
  - intros (elem & l & -> & Hne).
    destruct elem; first [reflexivity|congruence].
Qed.

(** X3: the message of a type-dependent array-wise rule that fails on an
    element of a [[]interface{}] is looked up under the numeric entry,
    whatever the element holds. *)
Theorem langEntry_interface_element reg rule (element : value) :
  isTypeDependent reg rule = true ->
  langEntry reg rule {| rtype := Some TInterface; rvalue := element |} true
  = "validation.rules." +:+ rule +:+ ".numeric.array".
Proof.
  intros Htd. rewrite langEntry_shape, Htd. reflexivity.
Qed.

(** ** Rule tokens *)

Lemma slice_from_app_cons a c b :
  slice_from (a +:+ String c b) (Z.of_nat (String.length a) + 1) = b.
Proof.
  replace (Z.of_nat (String.length a) + 1)
    with (Z.of_nat (String.length (a +:+ String c EmptyString))).
  - replace (a +:+ String c b) with ((a +:+ String c EmptyString) +:+ b)
      by now rewrite append_assoc.
    apply slice_from_app.
  - induction a as [|x a IH]; [reflexivity|].
    rewrite append_cons. cbn [String.length]. lia.
Qed.

(** What [parseRule] makes of a name and its parameter text. *)
Lemma parseRule_named reg rule ruleName params :
  (if IndexByte rule ":" =? -1
   then if CountByte rule "," >? 0 then Panicked (InvalidRule rule)
        else Ok (rule, [])
   else Ok (slice_to rule (IndexByte rule ":"),
            SplitByte (slice_from rule (IndexByte rule ":" + 1)) ","))
  = Ok (ruleName, params) ->
  parseRule reg rule
  = match ruleName with
    | EmptyString => Panicked (RuntimeError "index out of range")
    | String c tail =>
        let name := if Ascii.eqb c ">" then tail else ruleName in
        match validationRules reg !! name with
        | None => Panicked (RuleDoesNotExist name)
        | Some _ => Ok (name, Ascii.eqb c ">", params)
        end
    end.
Proof.
  intros Hparsed. unfold parseRule. rewrite Hparsed.
  destruct ruleName as [|c tail]; [reflexivity|].
  destruct (Ascii.eqb c ">"); reflexivity.
Qed.

(** X4: a token that parses is the text of what it parses to: [parseRule] is
    injective on the tokens it accepts.  The name it returns is registered,
    and no parameter holds a comma. *)
Theorem parseRule_formatRule reg rule ruleName validatesArray params :
  parseRule reg rule = Ok (ruleName, validatesArray, params) ->
  formatRule ruleName validatesArray params = rule
  /\ is_Some (validationRules reg !! ruleName)
  /\ Forall (fun p => CountByte p "," = 0) params
  /\ Z.of_nat (length params)
     = (if IndexByte rule ":" =? -1 then 0
        else 1 + CountByte (slice_from rule (IndexByte rule ":" + 1)) ",").
Proof.
  intros Hparse.
  split; [|split; [exact (parseRule_registered _ _ _ _ _ Hparse)|]];
    revert Hparse.
  - destruct (IndexByte rule ":" =? -1) eqn:Hidx.
    + destruct (CountByte rule "," >? 0) eqn:Hcomma.
      { unfold parseRule. rewrite Hidx, Hcomma. discriminate. }
      rewrite (parseRule_named reg rule rule [])
        by now rewrite Hidx, Hcomma.
      destruct rule as [|c tail]; [discriminate|]. cbv zeta.
      destruct (Ascii.eqb c ">") eqn:Hc;
        match goal with
        | |- context [validationRules reg !! ?n] =>
            destruct (validationRules reg !! n); [|discriminate]
        end; intros [= <- <- <-]; unfold formatRule.
      * apply Ascii.eqb_eq in Hc. subst c.
        now rewrite append_empty_r.
      * now rewrite append_empty_r.
    + apply Z.eqb_neq in Hidx.
      pose proof (IndexByte_range rule ":") as [Hr|Hr]; [lia|].
      destruct (IndexByte_cut rule ":" ltac:(lia)) as [Hcut _].
      set (pre := slice_to rule (IndexByte rule ":")) in *.
      set (post := slice_from rule (IndexByte rule ":" + 1)) in *.
      rewrite (parseRule_named reg rule pre (SplitByte post ","))
        by (destruct (IndexByte rule ":" =? -1) eqn:E;
            [apply Z.eqb_eq in E; lia|reflexivity]).
      destruct pre as [|c tail] eqn:Hpre; [discriminate|]. cbv zeta.
      assert (Hfmt : forall name arr,
                formatRule name arr (SplitByte post ",")
                = (if arr then ">" else EmptyString)
                  +:+ name +:+ String ":" post).
      { intros name arr. unfold formatRule.
        destruct (SplitByte_cons post ",") as (p & ps & Hs).
        rewrite <- (JoinByte_SplitByte post ",") at 2. now rewrite Hs. }
      destruct (Ascii.eqb c ">") eqn:Hc;
        match goal with
        | |- context [validationRules reg !! ?n] =>
            destruct (validationRules reg !! n); [|discriminate]
        end; intros [= <- <- <-]; rewrite Hfmt, Hcut.
      * apply Ascii.eqb_eq in Hc. subst c. reflexivity.
      * reflexivity.
  - intros Hparse. unfold parseRule in Hparse.
    destruct (IndexByte rule ":" =? -1) eqn:Hidx.
    + destruct (CountByte rule "," >? 0); [discriminate|].
      destruct rule as [|c tail]; [discriminate|].
      destruct (Ascii.eqb c ">");
        match type of Hparse with
        | context [validationRules reg !! ?n] =>
            destruct (validationRules reg !! n); [|discriminate]
        end; injection Hparse as <- <- <-; split; constructor.
    + destruct (slice_to rule (IndexByte rule ":")) as [|c tail];
        [discriminate|].
      destruct (Ascii.eqb c ">");
        match type of Hparse with
        | context [validationRules reg !! ?n] =>
            destruct (validationRules reg !! n); [|discriminate]
        end; injection Hparse as <- <- <-;
        (split; [apply SplitByte_pieces|apply SplitByte_length]).
Qed.

(** X5: the token written for a registered name parses back to the name, the
    marker and the parameters, provided the name is not empty, holds no
    colon and does not start with the marker, and no parameter holds a
    comma (nor the name, when there are no parameters). *)
Theorem formatRule_parseRule reg ruleName validatesArray params :
  is_Some (validationRules reg !! ruleName) ->
  ruleName <> EmptyString ->
  HasPrefix ruleName ">" = false ->
  CountByte ruleName ":" = 0 ->
  (params = [] -> CountByte ruleName "," = 0) ->
  Forall (fun p => CountByte p "," = 0) params ->
  parseRule reg (formatRule ruleName validatesArray params)
  = Ok (ruleName, validatesArray, params).
Proof.
  intros [r Hr] Hne Hmarker Hcolon Hcomma Hparams.
  set (marker := if validatesArray then ">" else EmptyString).
  assert (Hmc : forall c, c <> ">"%char -> CountByte marker c = 0).
  { intros c Hc. unfold marker. destruct validatesArray; [|reflexivity].
    cbn [CountByte]. destruct (Ascii.eqb ">" c) eqn:E; [|reflexivity].
    apply Ascii.eqb_eq in E. congruence. }
  assert (Hhead : forall ps : list string,
            match marker +:+ ruleName
                  return result (string * bool * list string) with
            | EmptyString => Panicked (RuntimeError "index out of range")
            | String c tail =>
                let name := if Ascii.eqb c ">" then tail
                            else marker +:+ ruleName in
                match validationRules reg !! name with
                | None => Panicked (RuleDoesNotExist name)
                | Some _ => Ok (name, Ascii.eqb c ">", ps)
                end
            end = Ok (ruleName, validatesArray, ps)).
  { intros ps. unfold marker. destruct validatesArray.
    - change (">" +:+ ruleName) with (String ">" ruleName).
      simpl. now rewrite Hr.
    - change (EmptyString +:+ ruleName) with ruleName.
      destruct ruleName as [|c tail]; [congruence|]. cbv beta iota zeta.
      destruct (Ascii.eqb c ">") eqn:E.
      + apply Ascii.eqb_eq in E. subst c. unfold HasPrefix in Hmarker.
        simpl in Hmarker. destruct tail; discriminate.
      + now rewrite Hr. }
  destruct params as [|p ps].
  - unfold formatRule. fold marker. rewrite append_empty_r.
    rewrite (parseRule_named reg _ (marker +:+ ruleName) []); [apply Hhead|].
    assert (IndexByte (marker +:+ ruleName) ":" = -1) as ->.
    { apply IndexByte_absent. rewrite CountByte_app, Hmc, Hcolon; easy. }
    simpl. rewrite CountByte_app, Hmc, Hcomma by easy. reflexivity.
  - unfold formatRule. fold marker. rewrite <- append_assoc.
    assert (Hidx : IndexByte ((marker +:+ ruleName)
                              +:+ String ":" (JoinByte (p :: ps) ",")) ":"
                   = Z.of_nat (String.length (marker +:+ ruleName))).
    { apply IndexByte_first. rewrite CountByte_app, Hmc, Hcolon; easy. }
    rewrite (parseRule_named reg _ (marker +:+ ruleName) (p :: ps));
      [apply Hhead|].
    rewrite Hidx.
    destruct (Z.of_nat _ =? -1) eqn:E; [apply Z.eqb_eq in E; lia|].
    rewrite (slice_to_app (marker +:+ ruleName)), slice_from_app_cons.
    now rewrite SplitByte_JoinByte.
Qed.

(** X6: [parseRule] ends in the run-time panic of indexing an empty string,
    not in a panic of the package, exactly on the tokens without a rule
    name: the empty token and those that start with the separator. *)
Theorem parseRule_no_name reg rule :
  parseRule reg rule = Panicked (RuntimeError "index out of range")
  <-> rule = EmptyString \/ (exists tail, rule = String ":" tail).
Proof.
  split; [|intros [->|[tail ->]]; reflexivity].
  intros Hpanic. unfold parseRule in Hpanic.
  destruct (IndexByte rule ":" =? -1) eqn:Hidx.
  - destruct (CountByte rule "," >? 0); [discriminate|].
    destruct rule as [|c tail]; [now left|].
    destruct (Ascii.eqb c ">");
      match type of Hpanic with
      | context [validationRules reg !! ?n] =>
          destruct (validationRules reg !! n); discriminate
      end.
  - apply Z.eqb_neq in Hidx.
    pose proof (IndexByte_range rule ":") as [Hr|Hr]; [lia|].
    destruct (IndexByte_cut rule ":" ltac:(lia)) as [Hcut _].
    destruct (slice_to rule (IndexByte rule ":")) as [|c tail].
    + right. eexists. exact Hcut.
    + destruct (Ascii.eqb c ">");
        match type of Hpanic with
        | context [validationRules reg !! ?n] =>
            destruct (validationRules reg !! n); discriminate
        end.
Qed.

Lemma parseRule_params reg rule ruleName validatesArray params :
  parseRule reg rule = Ok (ruleName, validatesArray, params) ->
  Z.of_nat (length params)
  = (if IndexByte rule ":" =? -1 then 0
     else 1 + CountByte (slice_from rule (IndexByte rule ":" + 1)) ",").
Proof.
  intros Hparse. unfold parseRule in Hparse.
  destruct (IndexByte rule ":" =? -1) eqn:Hidx.
  - destruct (CountByte rule "," >? 0); [discriminate|].
    destruct rule as [|c tail]; [discriminate|].
    destruct (Ascii.eqb c ">");
      match type of Hparse with
      | context [validationRules reg !! ?n] =>
          destruct (validationRules reg !! n); [|discriminate]
      end; injection Hparse as <- <- <-; reflexivity.
  - destruct (slice_to rule (IndexByte rule ":")) as [|c tail];
      [discriminate|].
    destruct (Ascii.eqb c ">");
      match type of Hparse with
      | context [validationRules reg !! ?n] =>
          destruct (validationRules reg !! n); [|discriminate]
      end; injection Hparse as <- <- <-; apply SplitByte_length.
Qed.

(** X7: a rule that requires one parameter is satisfied by every token with a
    separator, the one with nothing after the separator included, and
    panics on every token without. *)
Theorem RequireParametersCount_parsed {S} reg rule ruleName validatesArray
    params (s : S) :
  parseRule reg rule = Ok (ruleName, validatesArray, params) ->
  RequireParametersCount ruleName params 1 s
  = if IndexByte rule ":" =? -1
    then (Panicked (RequiresParameters ruleName 1), s)
    else (Ok tt, s).
Proof.
  intros Hparse. apply parseRule_params in Hparse.
  unfold RequireParametersCount.
  destruct (IndexByte rule ":" =? -1).
  - assert ((Z.of_nat (length params) <? 1) = true) as ->
      by (apply Z.ltb_lt; lia).
    reflexivity.
  - pose proof (CountByte_nonneg
                  (slice_from rule (IndexByte rule ":" + 1)) ",").
    assert ((Z.of_nat (length params) <? 1) = false) as ->
      by (apply Z.ltb_ge; lia).
    reflexivity.
Qed.

(** ** Registering rules *)

Lemma helper_Contains_app l x y :
  helper_Contains (l ++ [x]) y = helper_Contains l y || String.eqb y x.
Proof.
  unfold helper_Contains. rewrite existsb_app. simpl. now rewrite orb_false_r.
Qed.

(** X8: registering a fresh name succeeds: the name resolves to the rule, every
    other name resolves as before, and the type-dependence of the other
    names is unchanged; the new name is type-dependent if asked so. *)
Theorem AddRule_registers reg name typeDependentMessage (rule : Rule) :
  validationRules reg !! name = None ->
  exists reg',
    AddRule name typeDependentMessage rule reg = (Ok tt, reg')
    /\ validationRules reg' !! name = Some rule
    /\ (forall other, other <> name ->
          validationRules reg' !! other = validationRules reg !! other
          /\ isTypeDependent reg' other = isTypeDependent reg other)
    /\ isTypeDependent reg' name
       = typeDependentMessage || isTypeDependent reg name.
Proof.
  intros Hfresh. unfold AddRule. rewrite Hfresh. eexists. split; [reflexivity|].
  simpl. split; [apply lookup_insert_eq|]. split.
  - intros other Hother. split; [now apply lookup_insert_ne|].
    unfold isTypeDependent. simpl. destruct typeDependentMessage; [|reflexivity].
    rewrite helper_Contains_app.
    destruct (String.eqb other name) eqn:E;
      [apply String.eqb_eq in E; congruence|apply orb_false_r].
  - unfold isTypeDependent. simpl. destruct typeDependentMessage; [|reflexivity].
    rewrite helper_Contains_app, String.eqb_refl. apply orb_true_r.
Qed.

Lemma typeDependentRegistered_init : typeDependentRegistered init.
Proof.
  intros name Htd. unfold isTypeDependent, helper_Contains in Htd.
  apply existsb_exists in Htd as (x & Hin & Heq).
  apply String.eqb_eq in Heq. subst x. simpl in Hin.
  repeat (destruct Hin as [<-|Hin]; [eexists; reflexivity|]).
  destruct Hin.
Qed.

(** X9: [AddRule] never removes or replaces a registered rule, whether it
    succeeds or panics, and every type-dependent name stays so.  It keeps
    every type-dependent name registered, as they are after [init]; on
    such a registry a fresh name registered without the type-dependent
    flag is not type-dependent. *)
Theorem AddRule_preserves reg name typeDependentMessage (rule : Rule) :
  let reg' := (AddRule name typeDependentMessage rule reg).2 in
  (forall other (r : Rule),
      validationRules reg !! other = Some r ->
      validationRules reg' !! other = Some r)
  /\ (forall other,
        isTypeDependent reg other = true -> isTypeDependent reg' other = true)
  /\ (typeDependentRegistered reg -> typeDependentRegistered reg')
  /\ (typeDependentRegistered reg ->
      validationRules reg !! name = None ->
      isTypeDependent reg' name = typeDependentMessage)
  /\ typeDependentRegistered init.
Proof.
  cbv zeta.
  assert (Hkeep : forall other (r : Rule),
            validationRules reg !! other = Some r ->
            validationRules (AddRule name typeDependentMessage rule reg).2
              !! other = Some r).
  { intros other r Hother. unfold AddRule.
    destruct (validationRules reg !! name) eqn:Hname; [exact Hother|].
    simpl. rewrite lookup_insert_ne; [exact Hother|]. congruence. }
  assert (Htd : forall other,
            isTypeDependent (AddRule name typeDependentMessage rule reg).2 other
            = isTypeDependent reg other
              || (typeDependentMessage && String.eqb other name
                  && match validationRules reg !! name with
                     | Some _ => false
                     | None => true
                     end)).
  { intros other. unfold AddRule.
    destruct (validationRules reg !! name) eqn:Hname; simpl.
    - now rewrite andb_false_r, orb_false_r.
    - unfold isTypeDependent. simpl.
      destruct typeDependentMessage; simpl.
      + now rewrite helper_Contains_app, andb_true_r.
      + now rewrite orb_false_r. }
  split; [exact Hkeep|]. split; [|split; [|split]].
  - intros other Hother. now rewrite Htd, Hother.
  - intros Hreg other Hother. rewrite Htd in Hother.
    apply orb_true_iff in Hother as [Hother|Hnew].
    + destruct (Hreg other Hother) as [r Hr]. eauto.
    + apply andb_true_iff in Hnew as [Hnew Hfresh].
      apply andb_true_iff in Hnew as [_ Heq].
      apply String.eqb_eq in Heq. subst other.
      unfold AddRule.
      destruct (validationRules reg !! name) eqn:Hname; [discriminate|].
      simpl. rewrite lookup_insert_eq. eauto.
  - intros Hreg Hfresh. rewrite Htd, Hfresh, String.eqb_refl.
    destruct (isTypeDependent reg name) eqn:Hold.
    + destruct (Hreg name Hold) as [r Hr]. congruence.
    + now rewrite !andb_true_r.
  - exact typeDependentRegistered_init.
Qed.

(** ** The errors a validation returns *)

(** The rules of a field only ever add messages, at the end of the list of
    that field. *)
Lemma validateRules_grows reg language fieldName field :
  forall errors data errors' data',
    validateRules reg language fieldName field errors data
    = (Ok errors', data') ->
    exists added,
      (length added <= length field)%nat
      /\ errors'
         = match added with
           | [] => errors
           | _ => <[fieldName :=
                      (default [] (errors !! fieldName) ++ added)%list]> errors
           end.
Proof.
  assert (Hstep : forall (errors errors' : Errors) message added,
            errors'
            = match added with
              | [] => appendError errors fieldName message
              | _ => <[fieldName :=
                         (default [] (appendError errors fieldName message
                                        !! fieldName) ++ added)%list]>
                       (appendError errors fieldName message)
              end ->
            errors'
            = <[fieldName :=
                  (default [] (errors !! fieldName)
                   ++ message :: added)%list]> errors).
  { intros errors errors' message added ->. destruct added as [|m added].
    - reflexivity.
    - rewrite appendError_lookup. simpl. unfold appendError.
      rewrite insert_insert_eq. now rewrite <- app_assoc. }
  induction field as [|rule field IH]; intros errors data errors' data' Hrun.
  - injection Hrun as <- <-. exists []. split; [simpl; lia|reflexivity].
  - simpl in Hrun. destruct (String.eqb rule "nullable").
    { unfold bind, get in Hrun. destruct (isNil _).
      - injection Hrun as <- <-. exists []. split; [simpl; lia|reflexivity].
      - apply IH in Hrun as (added & Hlen & ->). exists added.
        split; [simpl; lia|reflexivity]. }
    destruct (parseRule reg rule) as [[[ruleName validatesArray] params]|p];
      [|discriminate].
    destruct validatesArray.
    + unfold bind in Hrun.
      destruct (validateRuleInArray reg ruleName fieldName params data)
        as [[[errorValue|]|p] data1]; [| |discriminate].
      * apply IH in Hrun as (added & Hlen & Herrors).
        apply Hstep in Herrors. eexists (_ :: added).
        split; [simpl; lia|exact Herrors].
      * apply IH in Hrun as (added & Hlen & ->). exists added.
        split; [simpl; lia|reflexivity].
    + unfold bind, get in Hrun.
      destruct (validationRules reg !! ruleName) as [r|]; [|discriminate].
      destruct (r fieldName (index data fieldName) params data)
        as [[[|]|p] data1]; [| |discriminate].
      * apply IH in Hrun as (added & Hlen & ->). exists added.
        split; [simpl; lia|reflexivity].
      * apply IH in Hrun as (added & Hlen & Herrors).
        apply Hstep in Herrors. eexists (_ :: added).
        split; [simpl; lia|exact Herrors].
Qed.

Lemma validateField_grows reg isJSON language fieldName field errors data
    errors' data' :
  validateField reg isJSON language fieldName field errors data
  = (Ok errors', data') ->
  exists added,
    (length added <= length field)%nat
    /\ errors'
       = match added with
         | [] => errors
         | _ => <[fieldName :=
                    (default [] (errors !! fieldName) ++ added)%list]> errors
         end.
Proof.
  unfold validateField, bind, get, modify, ret.
  destruct (negb (isNullable field) && _); simpl;
    (destruct (negb (isRequired field)); simpl;
     [match goal with
      | |- context [validateRequired ?f ?v ?ps ?d] =>
          destruct (validateRequired f v ps d) as [[[|]|p] d1]
      end; simpl|]);
    try discriminate;
    try (intros [= <- <-]; exists []; split; [simpl; lia|reflexivity]);
    match goal with
    | |- context [convertArray ?j ?f ?fl ?d] =>
        destruct (convertArray j f fl d) as [[[]|p] d2]
    end; try discriminate; apply validateRules_grows.
Qed.

(** X10: the messages of a field are those it had, followed by at most one
    message per rule token; the messages of the other fields are left
    alone. *)
Theorem validateField_errors reg isJSON language fieldName field errors data
    errors' data' :
  validateField reg isJSON language fieldName field errors data
  = (Ok errors', data') ->
  (forall key, key <> fieldName -> errors' !! key = errors !! key)
  /\ exists added,
       default [] (errors' !! fieldName)
       = (default [] (errors !! fieldName) ++ added)%list
       /\ (length added <= length field)%nat
       /\ (added = [] -> errors' = errors).
Proof.
  intros Hrun. apply validateField_grows in Hrun as (added & Hlen & ->).
  destruct added as [|m added].
  - split; [reflexivity|]. exists []. now rewrite app_nil_r.
  - split.
    + intros key Hkey. now rewrite lookup_insert_ne.
    + exists (m :: added). rewrite lookup_insert_eq. simpl.
      split; [reflexivity|]. split; [exact Hlen|discriminate].
Qed.

Lemma validateFields_errors reg isJSON language fields :
  NoDup fields.*1 ->
  forall (errors : Errors) data errors' data',
    (forall key, is_Some (errors !! key) -> key ∉ fields.*1) ->
    validateFields reg isJSON language fields errors data
    = (Ok errors', data') ->
    forall key msgs,
      errors' !! key = Some msgs ->
      errors !! key = Some msgs
      \/ (msgs <> []
          /\ exists field,
               (key, field) ∈ fields /\ (length msgs <= length field)%nat).
Proof.
  induction fields as [|[fieldName field] fields IH];
    intros Hnodup errors data errors' data' Hfresh Hrun key msgs Hkey.
  - injection Hrun as <- <-. now left.
  - simpl in Hrun, Hnodup. apply NoDup_cons in Hnodup as [Hnotin Hnodup].
    unfold bind in Hrun.
    destruct (validateField reg isJSON language fieldName field errors data)
      as [[errors1|p] data1] eqn:Hfield; [|discriminate].
    apply validateField_grows in Hfield as (added & Hlen & Herrors1).
    assert (Hnone : errors !! fieldName = None).
    { destruct (errors !! fieldName) eqn:E; [|reflexivity].
      destruct (Hfresh fieldName); [eauto|]. simpl. left. }
    rewrite Hnone in Herrors1. simpl in Herrors1.
    destruct (IH Hnodup errors1 data1 errors' data') with (key := key)
      (msgs := msgs) as [Hold|(Hne & fld & Hin & Hle)]; try assumption.
    + intros key' [m Hm] Hin. subst errors1.
      destruct added as [|a added].
      * apply (Hfresh key'); [eauto|]. simpl. now right.
      * destruct (decide (fieldName = key')) as [<-|Hne];
          [contradiction|].
        rewrite lookup_insert_ne in Hm by assumption.
        apply (Hfresh key'); [eauto|]. simpl. now right.
    + subst errors1. destruct added as [|a added]; [now left|].
      destruct (decide (fieldName = key)) as [<-|Hne].
      * rewrite lookup_insert_eq in Hold. injection Hold as <-.
        right. split; [discriminate|]. exists field.
        split; [left|exact Hlen].
      * rewrite lookup_insert_ne in Hold by assumption. now left.
    + right. split; [exact Hne|]. exists fld. split; [now right|exact Hle].
Qed.

(** X11: the errors [validate] returns are keyed by fields of the rule set, and
    hold for each of them at least one message and at most one per rule
    token of the field: the size of the map is the number of fields that
    failed. *)
Theorem validate_errors reg request rules language data errors data' :
  validate reg request rules language data = (Ok errors, data') ->
  forall key msgs,
    errors !! key = Some msgs ->
    msgs <> []
    /\ exists field,
         rules !! key = Some field /\ (length msgs <= length field)%nat.
Proof.
  unfold validate. intros Hrun key msgs Hkey.
  destruct (validateFields_errors reg
              (String.eqb (Header_Get (Header request) "Content-Type")
                 "application/json")
              language (map_to_list rules)
              (NoDup_fst_map_to_list rules) ∅ data errors data')
    with (key := key) (msgs := msgs)
    as [Hempty|(Hne & field & Hin & Hle)]; try assumption.
  - intros key' [m Hm]. now rewrite lookup_empty in Hm.
  - now rewrite lookup_empty in Hempty.
  - split; [exact Hne|]. exists field.
    split; [now apply elem_of_map_to_list|exact Hle].
Qed.

(** ** What an array-wise rule does to the tree *)

Lemma setElement_frame fieldName i x (data : DataTree) :
  (forall key, key <> fieldName ->
     setElement fieldName i x data !! key = data !! key)
  /\ (forall elem l,
        data !! fieldName = Some (VSlice elem l) ->
        setElement fieldName i x data !! fieldName
        = Some (VSlice elem (<[i := x]> l))).
Proof.
  unfold setElement. split.
  - intros key Hkey.
    destruct (data !! fieldName) as [[]|]; try reflexivity.
    now rewrite lookup_insert_ne.
  - intros elem l Hdata. rewrite Hdata. apply lookup_insert_eq.
Qed.

Lemma validateElements_frame reg ruleName fieldName params elem rest :
  forall i l (data : DataTree),
    data !! fieldName = Some (VSlice elem l) ->
    let data' :=
      (validateElements reg ruleName fieldName params elem i rest data).2 in
    (forall key, key <> fieldName -> data' !! key = data !! key)
    /\ exists l', data' !! fieldName = Some (VSlice elem l')
                  /\ length l' = length l
                  /\ take i l' = take i l.
Proof.
  induction rest as [|value rest IH]; intros i l data Hdata; cbv zeta; simpl.
  - split; [reflexivity|]. eauto.
  - destruct (validationRules reg !! ruleName) as [rule|];
      [|split; [reflexivity|eauto]].
    destruct (rule fieldName value params _) as [[[|]|p] tmpData];
      try (split; [reflexivity|eauto]).
    destruct (settable elem _); [|split; [reflexivity|eauto]].
    unfold bind, modify.
    destruct (setElement_frame fieldName i (index tmpData fieldName) data)
      as [Hother Hfield].
    specialize (Hfield elem l Hdata).
    destruct (IH (S i) _ _ Hfield) as [Hother' (l' & Hl' & Hlen & Htake)].
    split.
    + intros key Hkey. rewrite Hother' by assumption. now apply Hother.
    + exists l'. split; [exact Hl'|]. split.
      * now rewrite Hlen, length_insert.
      * apply (f_equal (take i)) in Htake.
        rewrite !take_take, Nat.min_l in Htake by lia.
        rewrite Htake. apply take_insert_ge. lia.
Qed.

(** X12: an array-wise check adds no key to the data and removes none, and
    the field it is run on stays a slice of the same element type and the
    same length, also when the check panics; when the field does not hold a
    slice the data is left as it was. *)
Theorem validateRuleInArray_shape reg ruleName fieldName params
    (data : DataTree) :
  let data' := (validateRuleInArray reg ruleName fieldName params data).2 in
  (forall key, is_Some (data' !! key) <-> is_Some (data !! key))
  /\ (forall elem l,
        data !! fieldName = Some (VSlice elem l) ->
        exists l', data' !! fieldName = Some (VSlice elem l')
                   /\ length l' = length l)
  /\ ((forall elem l, data !! fieldName <> Some (VSlice elem l)) ->
      data' = data).
Proof.
  cbv zeta. unfold validateRuleInArray.
  destruct (negb _); [repeat split; eauto|].
  unfold index. destruct (data !! fieldName) as [v|] eqn:Hdata; simpl;
    [|repeat split; eauto; discriminate].
  destruct v as [| | | | | | | | | |elem l|];
    try (repeat split; eauto; discriminate).
  destruct (validateElements_frame reg ruleName fieldName params elem l 0 l
              data Hdata) as [Hother (l' & Hl' & Hlen & _)].
  split; [|split].
  - intros key. destruct (decide (key = fieldName)) as [->|Hkey].
    + rewrite Hl', Hdata. split; eauto.
    + now rewrite Hother.
  - intros elem' l0 [= <- <-]. eauto.
  - intros Hnot. now destruct (Hnot elem l).
Qed.

(** X13: on an empty array an array-wise token adds no message and calls no
    rule function, whatever the rule. *)
Theorem validateRules_empty_array reg language fieldName rule ruleName params
    field errors elem (data : DataTree) :
  parseRule reg rule = Ok (ruleName, true, params) ->
  data !! fieldName = Some (VSlice elem []) -> elem <> TFile ->
  validateRules reg language fieldName (rule :: field) errors data
  = validateRules reg language fieldName field errors data.
Proof.
  intros Hparse Hdata Helem.
  rewrite (validateRules_array reg language fieldName rule ruleName params
             field errors data Hparse).
  unfold validateRuleInArray, index. rewrite Hdata. simpl.
  assert (Harray : GetFieldType (VSlice elem []) = "array").
  { destruct elem; first [reflexivity|congruence]. }
  now rewrite Harray.
Qed.

(** ** Single values sent for an array *)

(** X14: [convertArray] leaves the tree alone for a JSON request, for a field
    that does not ask for an array and for a value that is a slice already;
    otherwise it replaces a value that is not nil by the one-element slice
    of its type, and panics on nil.  Converting twice is converting once. *)
Theorem convertArray_cases isJSON fieldName field (data : DataTree) :
  ((isJSON = true \/ isArray field = false
    \/ exists elem l, index data fieldName = VSlice elem l) ->
   convertArray isJSON fieldName field data = (Ok tt, data))
  /\ (isJSON = false -> isArray field = true ->
      (forall elem l, index data fieldName <> VSlice elem l) ->
      match TypeOf (index data fieldName) with
      | Some t =>
          convertArray isJSON fieldName field data
          = (Ok tt, <[fieldName := VSlice t [index data fieldName]]> data)
      | None =>
          convertArray isJSON fieldName field data
          = (Panicked (RuntimeError "nil pointer dereference"), data)
      end)
  /\ (forall data',
        convertArray isJSON fieldName field data = (Ok tt, data') ->
        convertArray isJSON fieldName field data' = (Ok tt, data')).
Proof.
  assert (Hslice : forall v,
            String.eqb (Kind_String (Value_Kind (ValueOf v))) "slice" = true
            <-> exists elem l, v = VSlice elem l).
  { intros v. split.
    - destruct v; try discriminate. eauto.
    - intros (elem & l & ->). reflexivity. }
  split; [|split].
  - intros [->|[Hfield|Hv]]; unfold convertArray; [reflexivity| |].
    + rewrite Hfield. now destruct (negb isJSON).
    + apply Hslice in Hv. rewrite Hv, andb_false_r. now destruct (negb isJSON).
  - intros -> Hfield Hnot. unfold convertArray. simpl. rewrite Hfield.
    destruct (String.eqb _ "slice") eqn:E.
    + apply Hslice in E as (elem & l & Hv). now destruct (Hnot elem l).
    + simpl. destruct (TypeOf (index data fieldName)); reflexivity.
  - intros data'. unfold convertArray.
    destruct (negb isJSON); [|intros [= <-]; reflexivity].
    destruct (isArray field); simpl; [|intros [= <-]; reflexivity].
    destruct (String.eqb _ "slice") eqn:E; simpl.
    + intros [= <-]. now rewrite E.
    + destruct (TypeOf (index data fieldName)); [|discriminate].
      intros [= <-]. unfold index. now rewrite lookup_insert_eq.
Qed.

End Properties.

(** ** The date validators *)

(** C6: for every reference instant, [After] rejects the reference itself
    and accepts exactly the dates strictly after it; [AfterEqual] accepts
    the reference itself, and exactly the dates at or after it; both answer
    false, without panicking, on every value that is not a date: strings,
    characters, integers, floats, booleans, slices and nil among them. *)
Theorem after_validators (ref : Z) :
  (forall data,
      V5.Validate (V5.After ref) {| V5.Value := VTime ref; V5.Data := data |}
      = Ok false)
  /\ (forall ctx,
        V5.Validate (V5.After ref) ctx = Ok true
        <-> exists t, V5.Value ctx = VTime t /\ ref < t)
  /\ (forall data,
        V5.Validate (V5.AfterEqual ref)
          {| V5.Value := VTime ref; V5.Data := data |}
        = Ok true)
  /\ (forall ctx,
        V5.Validate (V5.AfterEqual ref) ctx = Ok true
        <-> exists t, V5.Value ctx = VTime t /\ ref <= t)
  /\ (forall ctx,
        (forall t, V5.Value ctx <> VTime t) ->
        V5.Validate (V5.After ref) ctx = Ok false
        /\ V5.Validate (V5.AfterEqual ref) ctx = Ok false)
  /\ Forall (fun v =>
               forall data,
                 V5.Validate (V5.After ref)
                   {| V5.Value := v; V5.Data := data |} = Ok false
                 /\ V5.Validate (V5.AfterEqual ref)
                      {| V5.Value := v; V5.Data := data |} = Ok false)
       [ VString "string"; VInt32 97; VInt 2; VFloat64 2.5%float;
         VSlice TString [VString "string"]; VBool true; VNil ].
Proof.
  split; [|split; [|split; [|split; [|split]]]].
  - intros data. simpl. unfold V5.Time_After. now rewrite Z.ltb_irrefl.
  - intros [v data]. simpl. split.
    + intros [= Hv]. destruct v; try discriminate.
      unfold V5.validateDate, V5.Time_After in Hv.
      apply Z.ltb_lt in Hv. eauto.
    + intros (t & -> & Hlt). simpl. unfold V5.Time_After.
      apply Z.ltb_lt in Hlt. now rewrite Hlt.
  - intros data. simpl. unfold V5.Time_After, V5.Time_Equal.
    now rewrite Z.eqb_refl, orb_true_r.
  - intros [v data]. simpl. split.
    + intros [= Hv]. destruct v; try discriminate.
      unfold V5.validateDate, V5.Time_After, V5.Time_Equal in Hv.
      apply orb_true_iff in Hv as [Hv|Hv];
        [apply Z.ltb_lt in Hv | apply Z.eqb_eq in Hv]; exists t;
        split; [reflexivity|lia|reflexivity|lia].
    + intros (t & -> & Hle). simpl. unfold V5.Time_After, V5.Time_Equal.
      destruct (ref <? t) eqn:E; [reflexivity|].
      apply Z.ltb_ge in E. assert (t = ref) as -> by lia.
      now rewrite Z.eqb_refl.
  - intros [v data] Hnot. simpl in *.
    destruct v; try (split; reflexivity). now destruct (Hnot t).
  - repeat constructor.
Qed.

Lemma sequence_resolve_leaves (l : list value) :
  V5.sequence (V5.resolve [] <$> l) = Ok ((fun v => [v]) <$> l).
Proof.
  induction l as [|v l IH]; [reflexivity|].
  rewrite !fmap_cons.
  change (V5.sequence (V5.resolve [] v :: (V5.resolve [] <$> l)))
    with (match V5.sequence (V5.resolve [] <$> l) with
          | Ok l0 => Ok ([v] :: l0)
          | Panicked p => Panicked p
          end).
  now rewrite IH.
Qed.

Lemma concat_singletons {A} (l : list A) : concat ((fun v => [v]) <$> l) = l.
Proof.
  induction l as [|v l IH]; [reflexivity|].
  rewrite fmap_cons. change (v :: concat ((fun v => [v]) <$> l) = v :: l).
  now rewrite IH.
Qed.

(** The path of the tests resolves to the references of the tree, in
    order. *)
Lemma resolve_makeAfterFieldData (refs : list Z) :
  V5.resolve [V5.Key "object"; V5.Each "field"]
    (VMap (V5.makeAfterFieldData refs))
  = Ok (VTime <$> refs).
Proof.
  unfold V5.makeAfterFieldData. simpl.
  rewrite lookup_singleton_eq. simpl. rewrite lookup_singleton_eq. simpl.
  rewrite sequence_resolve_leaves. now rewrite concat_singletons.
Qed.

Lemma forallb_after (refs : list Z) (t : Z) :
  forallb (fun ref =>
             match ref with
             | VTime ref => V5.Time_After t ref
             | _ => false
             end) (VTime <$> refs)
  = forallb (fun ref => ref <? t) refs.
Proof.
  induction refs as [|ref refs IH]; [reflexivity|].
  rewrite fmap_cons. simpl. now rewrite IH.
Qed.

(** The field-referencing validator compares the candidate with every
    reference found in the tree it is run on. *)
Lemma AfterField_broadcast (refs : list Z) (t : Z) v :
  V5.AfterField "object.field[]" = Ok v ->
  V5.Validate v
    {| V5.Value := VTime t; V5.Data := V5.makeAfterFieldData refs |}
  = Ok (forallb (fun ref => ref <? t) refs).
Proof.
  intros [= <-]. simpl. unfold V5.validateField_date. simpl V5.Value.
  simpl V5.Data. rewrite resolve_makeAfterFieldData.
  now rewrite forallb_after.
Qed.

(** C7: the validator built from the wildcard path object.field[] compares
    the candidate with every reference the path resolves to: with two
    references t1 before t2, a candidate strictly after t2 passes and a
    candidate between t1 and t2 fails.  The references are those of the tree
    the validator is run on: the same validator accepts a candidate between
    t1 and t2 on the tree that holds t1 alone. *)
Theorem after_field_wildcard (t1 t2 : Z) :
  t1 < t2 ->
  exists v,
    V5.AfterField "object.field[]" = Ok v
    /\ (forall refs t,
          V5.Validate v
            {| V5.Value := VTime t; V5.Data := V5.makeAfterFieldData refs |}
          = Ok (forallb (fun ref => ref <? t) refs))
    /\ (forall t, t2 < t ->
          V5.Validate v
            {| V5.Value := VTime t;
               V5.Data := V5.makeAfterFieldData [t1; t2] |}
          = Ok true)
    /\ (forall t, t1 <= t <= t2 ->
          V5.Validate v
            {| V5.Value := VTime t;
               V5.Data := V5.makeAfterFieldData [t1; t2] |}
          = Ok false)
    /\ (forall t, t1 < t <= t2 ->
          V5.Validate v
            {| V5.Value := VTime t; V5.Data := V5.makeAfterFieldData [t1] |}
          = Ok true).
Proof.
  intros Hlt.
  exists {| V5.AfterFieldPath := [V5.Key "object"; V5.Each "field"] |}.
  split; [reflexivity|].
  split; [intros refs t; now apply AfterField_broadcast|].
  split; [|split]; intros t Ht;
    rewrite (AfterField_broadcast _ t _ eq_refl); simpl; f_equal.
  - assert ((t1 <? t) = true) as -> by (apply Z.ltb_lt; lia).
    assert ((t2 <? t) = true) as -> by (apply Z.ltb_lt; lia). reflexivity.
  - assert ((t2 <? t) = false) as -> by (apply Z.ltb_ge; lia).
    now rewrite andb_false_r.
  - assert ((t1 <? t) = true) as -> by (apply Z.ltb_lt; lia). reflexivity.
Qed.

(** ** File names *)

Section FileNames.
Import fsutil.

Lemma length_append a b :
  String.length (a +:+ b) = (String.length a + String.length b)%nat.
Proof.
  induction a as [|x a IH]; [reflexivity|].
  rewrite append_cons. simpl. now rewrite IH.
Qed.

Lemma LastIndexByte_range s c :
  LastIndexByte s c = -1
  \/ 0 <= LastIndexByte s c < Z.of_nat (String.length s).
Proof.
  induction s as [|a s IH]; [now left|].
  cbn [LastIndexByte String.length].
  destruct (0 <=? LastIndexByte s c) eqn:E;
    [apply Z.leb_le in E | apply Z.leb_gt in E].
  - right. lia.
  - destruct (Ascii.eqb a c); [right; lia|now left].
Qed.

Lemma LastIndexByte_absent s c :
  LastIndexByte s c = -1 <-> CountByte s c = 0.
Proof.
  induction s as [|a s IH]; [easy|].
  cbn [LastIndexByte CountByte]. pose proof (CountByte_nonneg s c).
  pose proof (LastIndexByte_range s c).
  destruct (0 <=? LastIndexByte s c) eqn:E;
    [apply Z.leb_le in E | apply Z.leb_gt in E];
    destruct (Ascii.eqb a c); lia.
Qed.

Lemma LastIndexByte_last a b c :
  CountByte b c = 0 ->
  LastIndexByte (a +:+ String c b) c = Z.of_nat (String.length a).
Proof.
  intros Hb. induction a as [|x a IH].
  - change (EmptyString +:+ String c b) with (String c b).
    cbn [LastIndexByte]. apply LastIndexByte_absent in Hb. rewrite Hb.
    simpl. now rewrite Ascii.eqb_refl.
  - rewrite append_cons. cbn [LastIndexByte String.length]. rewrite IH.
    destruct (0 <=? Z.of_nat (String.length a)) eqn:E;
      [lia|apply Z.leb_gt in E; lia].
Qed.

Lemma slice_to_cons a s i :
  0 <= i -> slice_to (String a s) (i + 1) = String a (slice_to s i).
Proof.
  intros Hi. unfold slice_to.
  replace (Z.to_nat (i + 1)) with (S (Z.to_nat i)) by lia. reflexivity.
Qed.

Lemma slice_from_cons a s i :
  0 <= i -> slice_from (String a s) (i + 1) = slice_from s i.
Proof.
  intros Hi. unfold slice_from.
  replace (Z.to_nat (i + 1)) with (S (Z.to_nat i)) by lia. reflexivity.
Qed.

Lemma LastIndexByte_cut s c :
  0 <= LastIndexByte s c ->
  s = slice_to s (LastIndexByte s c)
      +:+ String c (slice_from s (LastIndexByte s c + 1))
  /\ CountByte (slice_from s (LastIndexByte s c + 1)) c = 0.
Proof.
  induction s as [|a s IH]; [simpl; lia|].
  cbn [LastIndexByte].
  destruct (0 <=? LastIndexByte s c) eqn:E;
    [apply Z.leb_le in E | apply Z.leb_gt in E].
  - intros _. destruct (IH E) as [Hs Hcount].
    rewrite slice_to_cons by exact E. rewrite slice_from_cons by lia.
    split; [|exact Hcount]. rewrite append_cons. f_equal. exact Hs.
  - destruct (Ascii.eqb a c) eqn:Ea; [|lia]. intros _.
    apply Ascii.eqb_eq in Ea. subst a.
    assert (Hnone : CountByte s c = 0).
    { apply LastIndexByte_absent. pose proof (LastIndexByte_range s c). lia. }
    unfold slice_to, slice_from. simpl.
    rewrite Nat.sub_0_r, substring_all. split; [reflexivity|exact Hnone].
Qed.

Lemma GetFileExtension_no_dot filename :
  CountByte (GetFileExtension filename) "." = 0.
Proof.
  unfold GetFileExtension.
  pose proof (LastIndexByte_range filename ".") as Hrange.
  destruct (LastIndexByte filename "." =? -1) eqn:E; [reflexivity|].
  apply Z.eqb_neq in E. now apply LastIndexByte_cut; lia.
Qed.

Lemma GetFileExtension_plain filename :
  CountByte filename "." = 0 -> GetFileExtension filename = EmptyString.
Proof.
  intros Hnone. unfold GetFileExtension.
  apply LastIndexByte_absent in Hnone. now rewrite Hnone.
Qed.

Lemma GetFileExtension_cut filename :
  0 < CountByte filename "." ->
  exists base, filename = base +:+ String "." (GetFileExtension filename).
Proof.
  intros Hsome. unfold GetFileExtension.
  pose proof (LastIndexByte_range filename ".") as Hrange.
  pose proof (LastIndexByte_absent filename ".") as Habsent.
  destruct (LastIndexByte filename "." =? -1) eqn:E;
    [apply Z.eqb_eq in E; lia|]. apply Z.eqb_neq in E.
  eexists. apply LastIndexByte_cut. lia.
Qed.

Lemma GetFileExtension_app base ext :
  CountByte ext "." = 0 ->
  GetFileExtension (base +:+ String "." ext) = ext.
Proof.
  intros Hext. unfold GetFileExtension.
  rewrite LastIndexByte_last by exact Hext.
  destruct (Z.of_nat (String.length base) =? -1) eqn:E;
    [apply Z.eqb_eq in E; lia|].
  apply slice_from_app_cons.
Qed.

(** X15: [GetFileExtension] returns what follows the last dot: it holds no dot
    itself, is empty for a name without a dot, and the name is a base, a
    dot and the extension otherwise; the extension of [base.ext] is [ext]
    whenever [ext] holds no dot, whatever the base holds. *)
Theorem GetFileExtension_last filename :
  CountByte (GetFileExtension filename) "." = 0
  /\ (CountByte filename "." = 0 -> GetFileExtension filename = EmptyString)
  /\ (0 < CountByte filename "." ->
      exists base,
        filename = base +:+ String "." (GetFileExtension filename))
  /\ (forall base ext,
        CountByte ext "." = 0 ->
        GetFileExtension (base +:+ String "." ext) = ext).
Proof.
  split; [|split; [|split]].
  - apply GetFileExtension_no_dot.
  - apply GetFileExtension_plain.
  - apply GetFileExtension_cut.
  - apply GetFileExtension_app.
Qed.

Lemma string_of_uint_no_dot d :
  CountByte (DecimalString.NilEmpty.string_of_uint d) "." = 0.
Proof. induction d; simpl; auto. Qed.

(** The decimal text of an integer holds no dot. *)
Lemma FormatInt_no_dot i : CountByte (FormatInt i) "." = 0.
Proof.
  unfold FormatInt, DecimalString.NilZero.string_of_int,
    DecimalString.NilZero.string_of_uint.
  destruct (Z.to_int i) as [d|d].
  - destruct d; try reflexivity; apply (string_of_uint_no_dot (_ d)).
  - change (0 + CountByte
                  match d with
                  | Decimal.Nil => "0"
                  | _ => DecimalString.NilEmpty.string_of_uint d
                  end "." = 0).
    destruct d; try reflexivity; apply (string_of_uint_no_dot (_ d)).
Qed.

(** X16: a time-stamped file name keeps the extension of the name: the stamp
    goes before the last dot, or at the end of a name without a dot. *)
Theorem timestampFileName_extension now name :
  GetFileExtension (timestampFileName now name) = GetFileExtension name
  /\ (CountByte name "." = 0 ->
      timestampFileName now name
      = name +:+ "-" +:+ FormatInt (Z.quot now 1000))
  /\ (forall base ext,
        CountByte ext "." = 0 ->
        timestampFileName now (base +:+ String "." ext)
        = base +:+ "-" +:+ FormatInt (Z.quot now 1000) +:+ String "." ext).
Proof.
  assert (Hplain : CountByte name "." = 0 ->
            timestampFileName now name
            = name +:+ "-" +:+ FormatInt (Z.quot now 1000)).
  { intros Hnone. unfold timestampFileName.
    apply LastIndexByte_absent in Hnone. rewrite Hnone. simpl.
    now rewrite append_empty_r. }
  assert (Hdotted : forall base ext,
            CountByte ext "." = 0 ->
            timestampFileName now (base +:+ String "." ext)
            = base +:+ "-" +:+ FormatInt (Z.quot now 1000)
              +:+ String "." ext).
  { intros base ext Hext. unfold timestampFileName.
    rewrite LastIndexByte_last by exact Hext.
    destruct (Z.of_nat (String.length base) =? -1) eqn:E;
      [apply Z.eqb_eq in E; lia|].
    now rewrite slice_to_app, slice_from_app. }
  split; [|split; [exact Hplain|exact Hdotted]].
  pose proof (CountByte_nonneg name ".") as Hcount.
  destruct (Z.eq_dec (CountByte name ".") 0) as [Hnone|Hsome].
  - rewrite Hplain by exact Hnone.
    rewrite (GetFileExtension_plain name) by exact Hnone.
    apply GetFileExtension_plain.
    rewrite !CountByte_app, Hnone, FormatInt_no_dot. reflexivity.
  - pose proof (GetFileExtension_no_dot name) as Hext.
    destruct (GetFileExtension_cut name) as [base Hbase]; [lia|].
    rewrite Hbase at 1. rewrite Hdotted by exact Hext.
    replace (base +:+ "-" +:+ FormatInt (now ÷ 1000)
             +:+ String "." (GetFileExtension name))
      with ((base +:+ "-" +:+ FormatInt (now ÷ 1000))
            +:+ String "." (GetFileExtension name))
      by now rewrite !append_assoc.
    now apply GetFileExtension_app.
Qed.

(** X17: a path is never both a file and a directory, and it is one of the two
    exactly when [Stat] succeeds on it. *)
Theorem FileExists_IsDirectory {T} `{StatFS T} (fs : T) (path : string) :
  FileExists fs path && IsDirectory fs path = false
  /\ (FileExists fs path || IsDirectory fs path = true
      <-> exists stats, Stat fs path = inl stats)
  /\ (forall stats,
        Stat fs path = inl stats ->
        FileExists fs path = negb (IsDirectory fs path)).
Proof.
  unfold FileExists, IsDirectory.
  destruct (Stat fs path) as [stats|err].
  - split; [now destruct (IsDir stats)|]. split.
    + split; [eauto|]. intros _. now destruct (IsDir stats).
    + now intros stats' [= <-].
  - split; [reflexivity|]. split.
    + split; [discriminate|]. intros [stats Hstats]. discriminate.
    + discriminate.
Qed.

(** ** Content types *)

Lemma HasSuffix_iff s suffix :
  HasSuffix s suffix = true <-> exists p, s = p +:+ suffix.
Proof.
  unfold HasSuffix. split.
  - intros Hs. apply andb_true_iff in Hs as [Hlen Heq].
    apply Nat.leb_le in Hlen. apply String.eqb_eq in Heq.
    exists (slice_to s (Z.of_nat (String.length s - String.length suffix))).
    rewrite <- Heq at 2.
    rewrite <- (slice_cut s (String.length s - String.length suffix))
      at 1 by lia.
    f_equal. unfold slice_from. rewrite Nat2Z.id. f_equal. lia.
  - intros [p ->]. rewrite length_append.
    apply andb_true_iff. split; [apply Nat.leb_le; lia|].
    apply String.eqb_eq.
    replace (String.length p + String.length suffix - String.length suffix)%nat
      with (String.length p) by lia.
    pose proof (slice_from_app p suffix) as Hcut.
    unfold slice_from in Hcut. rewrite Nat2Z.id, length_append in Hcut.
    replace (String.length p + String.length suffix - String.length p)%nat
      with (String.length suffix) in Hcut by lia.
    exact Hcut.
Qed.

Lemma append_suffix p : forall q a b,
  p +:+ a = q +:+ b -> (String.length b <= String.length a)%nat ->
  exists r, a = r +:+ b.
Proof.
  induction p as [|x p IH]; intros q a b Heq Hlen.
  - exists q. exact Heq.
  - destruct q as [|y q].
    + exfalso. change (EmptyString +:+ b) with b in Heq.
      apply (f_equal String.length) in Heq.
      rewrite append_cons in Heq. cbn [String.length] in Heq.
      rewrite length_append in Heq. lia.
    + rewrite !append_cons in Heq. injection Heq as _ Heq. eauto.
Qed.

(** A name does not end with two suffixes of which neither ends with the
    other. *)
Lemma HasSuffix_exclusive s e1 e2 :
  HasSuffix e1 e2 = false -> HasSuffix e2 e1 = false ->
  HasSuffix s e1 = true -> HasSuffix s e2 = true -> False.
Proof.
  intros H12 H21 [p Hp]%HasSuffix_iff [q Hq]%HasSuffix_iff.
  destruct (Nat.le_ge_cases (String.length e2) (String.length e1)) as [Hle|Hle].
  - destruct (append_suffix p q e1 e2) as [r Hr]; [congruence|exact Hle|].
    assert (HasSuffix e1 e2 = true) by (apply HasSuffix_iff; eauto).
    congruence.
  - destruct (append_suffix q p e2 e1) as [r Hr]; [congruence|exact Hle|].
    assert (HasSuffix e2 e1 = true) by (apply HasSuffix_iff; eauto).
    congruence.
Qed.

(** The table of extensions, in the order [map_to_list] gives. *)
Lemma contentTypeByExtension_list :
  map_to_list contentTypeByExtension
  = [ (".css", "text/css"); (".mjs", "text/javascript");
      (".jsonld", "application/ld+json"); (".json", "application/json");
      (".js", "text/javascript") ].
Proof. reflexivity. Qed.

(** No file name ends with two extensions of the table. *)
Lemma contentTypeByExtension_unique file (x y : string * string) :
  x ∈ map_to_list contentTypeByExtension ->
  y ∈ map_to_list contentTypeByExtension ->
  HasSuffix file x.1 = true -> HasSuffix file y.1 = true -> x = y.
Proof.
  rewrite contentTypeByExtension_list. rewrite !elem_of_cons, !elem_of_nil.
  intros Hx Hy Hfx Hfy.
  destruct Hx as [->|[->|[->|[->|[->|[]]]]]];
    destruct Hy as [->|[->|[->|[->|[->|[]]]]]];
    try reflexivity; exfalso;
    simpl in Hfx, Hfy;
    match type of Hfx with
    | HasSuffix file ?e1 = true =>
        match type of Hfy with
        | HasSuffix file ?e2 = true =>
            exact (HasSuffix_exclusive file e1 e2 eq_refl eq_refl Hfx Hfy)
        end
    end.
Qed.

Lemma rangeExtensions_Permutation file contentType order1 order2 :
  order1 ≡ₚ order2 ->
  (forall x y, x ∈ order1 -> y ∈ order1 ->
     HasSuffix file x.1 = true -> HasSuffix file y.1 = true -> x = y) ->
  rangeExtensions order1 file contentType
  = rangeExtensions order2 file contentType.
Proof.
  intros Hperm.
  induction Hperm as [|[ext t] l l' Hperm IH|[e1 t1] [e2 t2] l|l l' l'' H1 IH1 H2 IH2];
    intros Hunique.
  - reflexivity.
  - simpl. destruct (HasSuffix file ext); [reflexivity|].
    apply IH. intros x y Hx Hy. apply Hunique; now right.
  - simpl. destruct (HasSuffix file e1) eqn:E1;
      destruct (HasSuffix file e2) eqn:E2; try reflexivity.
    assert ((e1, t1) = (e2, t2)) as [= -> ->]; [|reflexivity].
    apply Hunique; [right; left|left|exact E1|exact E2].
  - rewrite IH1 by exact Hunique. apply IH2.
    intros x y Hx Hy. apply Hunique; now rewrite H1.
Qed.

Lemma rangeExtensions_found file contentType order ext t :
  (ext, t) ∈ order -> HasSuffix file ext = true ->
  (forall x y, x ∈ order -> y ∈ order ->
     HasSuffix file x.1 = true -> HasSuffix file y.1 = true -> x = y) ->
  rangeExtensions order file contentType
  = if negb (IndexByte contentType ";" =? -1)
    then t +:+ slice_from contentType (IndexByte contentType ";")
    else t.
Proof.
  induction order as [|[e1 t1] order IH]; intros Hin Hsuffix Hunique.
  - now apply elem_of_nil in Hin.
  - simpl. destruct (HasSuffix file e1) eqn:E1.
    + assert ((e1, t1) = (ext, t)) as [= -> ->]; [|reflexivity].
      apply Hunique; [left|exact Hin|exact E1|exact Hsuffix].
    + apply elem_of_cons in Hin as [[= <- <-]|Hin]; [congruence|].
      apply IH; [exact Hin|exact Hsuffix|].
      intros x y Hx Hy. apply Hunique; now right.
Qed.

Lemma rangeExtensions_none file contentType order :
  (forall x, x ∈ order -> HasSuffix file x.1 = false) ->
  rangeExtensions order file contentType = contentType.
Proof.
  induction order as [|[e1 t1] order IH]; intros Hnone; [reflexivity|].
  simpl. assert (HasSuffix file e1 = false) as ->
    by (apply (Hnone (e1, t1)); left).
  apply IH. intros x Hx. apply Hnone. now right.
Qed.

(** X18: the order in which the extension table is visited does not matter:
    [GetMIMEType] answers the same for every order of the map. *)
Theorem GetMIMEType_order DetectContentType {T} `{FS T} (filesystem : T)
    file order1 order2 :
  order1 ≡ₚ map_to_list contentTypeByExtension ->
  order2 ≡ₚ map_to_list contentTypeByExtension ->
  GetMIMEType DetectContentType order1 filesystem file
  = GetMIMEType DetectContentType order2 filesystem file.
Proof.
  intros H1 H2.
  assert (Hby : forall contentType,
            byExtension order1 file contentType
            = byExtension order2 file contentType).
  { intros contentType. unfold byExtension.
    destruct (_ || _); [|reflexivity].
    apply rangeExtensions_Permutation; [now rewrite H1, H2|].
    intros x y Hx Hy. rewrite H1 in Hx, Hy.
    now apply contentTypeByExtension_unique. }
  unfold GetMIMEType. destruct (Open filesystem file) as [f|err];
    [|reflexivity].
  destruct (File_Stat f) as [stat|err]; [|reflexivity].
  destruct (if negb (Size stat =? 0) then _ else _) as [contentType|err];
    [|reflexivity].
  now rewrite Hby.
Qed.

(** X19: the content type by extension: a detected type that is neither a byte
    stream nor plain text is kept; otherwise a file name that ends with an
    extension of the table gets the type of the table, followed by the
    parameters of the detected type from the first semicolon on, and a
    file name with no such extension keeps the detected type. *)
Theorem byExtension_cases order file contentType :
  order ≡ₚ map_to_list contentTypeByExtension ->
  (HasPrefix contentType "application/octet-stream" = false ->
   HasPrefix contentType "text/plain" = false ->
   byExtension order file contentType = contentType)
  /\ (forall ext t,
        contentTypeByExtension !! ext = Some t ->
        HasSuffix file ext = true ->
        HasPrefix contentType "application/octet-stream" = true
        \/ HasPrefix contentType "text/plain" = true ->
        byExtension order file contentType
        = if negb (IndexByte contentType ";" =? -1)
          then t +:+ slice_from contentType (IndexByte contentType ";")
          else t)
  /\ ((forall ext, is_Some (contentTypeByExtension !! ext) ->
                   HasSuffix file ext = false) ->
      byExtension order file contentType = contentType).
Proof.
  intros Horder. unfold byExtension. split; [|split].
  - intros -> ->. reflexivity.
  - intros ext t Hext Hsuffix Hprefix.
    assert (HasPrefix contentType "application/octet-stream"
            || HasPrefix contentType "text/plain" = true) as ->
      by (apply orb_true_iff; exact Hprefix).
    apply (rangeExtensions_found file contentType order ext t);
      [|exact Hsuffix|].
    + rewrite Horder. now apply elem_of_map_to_list.
    + intros x y Hx Hy. rewrite Horder in Hx, Hy.
      now apply contentTypeByExtension_unique.
  - intros Hnone. destruct (_ || _); [|reflexivity].
    apply rangeExtensions_none. intros [ext t] Hx.
    rewrite Horder in Hx. apply elem_of_map_to_list in Hx.
    apply Hnone. simpl. eauto.
Qed.

Lemma buffer_length read : length (buffer read) = 512%nat.
Proof.
  unfold buffer. rewrite length_take, length_app, length_replicate. lia.
Qed.

(** X20: what [GetMIMEType] answers for a file that opens and can be examined:
    an empty file is not read, and typed by its name alone; otherwise the
    detector is handed the whole buffer of 512 bytes, whatever the length
    of what was read.  The size is that of [Stat], and a failing close is
    the error. *)
Theorem GetMIMEType_detected DetectContentType {T} `{FS T} (filesystem : T)
    file order f stat :
  Open filesystem file = inl f -> File_Stat f = inl stat ->
  (Size stat = 0 ->
   GetMIMEType DetectContentType order filesystem file
   = (byExtension order file "application/octet-stream", 0,
      New <$> File_Close f))
  /\ (forall read,
        Size stat <> 0 -> File_Read f 512 = inl read ->
        GetMIMEType DetectContentType order filesystem file
        = (byExtension order file (DetectContentType (buffer read)),
           Size stat, New <$> File_Close f)
        /\ length (buffer read) = 512%nat).
Proof.
  intros Hopen Hstat. unfold GetMIMEType. rewrite Hopen, Hstat. split.
  - intros Hsize. rewrite Hsize. simpl. now destruct (File_Close f).
  - intros read Hsize Hread.
    apply Z.eqb_neq in Hsize. rewrite Hsize, Hread. simpl.
    split; [now destruct (File_Close f)|apply buffer_length].
Qed.

(** X21: the errors of [GetMIMEType]: there is none exactly when the file opens,
    [Stat] succeeds, the read succeeds unless the file is empty, and the
    close succeeds.  A failing open or [Stat] gives no content type and no
    size; a failing read gives the byte stream type and the size, and its
    error is reported whatever the close answers. *)
Theorem GetMIMEType_errors DetectContentType {T} `{FS T} (filesystem : T)
    file order :
  let '(contentType, size, err) :=
    GetMIMEType DetectContentType order filesystem file in
  (err = None
   <-> exists f stat,
         Open filesystem file = inl f /\ File_Stat f = inl stat
         /\ (Size stat = 0 \/ exists read, File_Read f 512 = inl read)
         /\ File_Close f = None)
  /\ (forall e, Open filesystem file = inr e ->
        contentType = EmptyString /\ size = 0
        /\ err = Some (NewSkip e 3))
  /\ (forall f e,
        Open filesystem file = inl f -> File_Stat f = inr e ->
        contentType = EmptyString /\ size = 0
        /\ err = Some (NewSkip e 3))
  /\ (forall f stat e,
        Open filesystem file = inl f -> File_Stat f = inl stat ->
        Size stat <> 0 -> File_Read f 512 = inr e ->
        contentType = "application/octet-stream" /\ size = Size stat
        /\ err = Some (NewSkip e 3)).
Proof.
  unfold GetMIMEType.
  destruct (Open filesystem file) as [f|eo] eqn:Hopen.
  - destruct (File_Stat f) as [stat|es] eqn:Hstat.
    + destruct (Size stat =? 0) eqn:Hsize; simpl.
      * apply Z.eqb_eq in Hsize.
        split; [|split; [discriminate|split; [intros ? ? [= <-]; congruence|]]].
        -- split.
           ++ intros Herr. exists f, stat.
              destruct (File_Close f); [discriminate|]. auto.
           ++ intros (f' & stat' & [= <-] & _ & _ & ->). reflexivity.
        -- intros f' stat' e [= <-]. rewrite Hstat. intros [= <-]. lia.
      * apply Z.eqb_neq in Hsize.
        destruct (File_Read f 512) as [read|er] eqn:Hread.
        -- split; [|split; [discriminate|split;
                    [intros ? ? [= <-]; congruence|]]].
           ++ split.
              ** intros Herr. exists f, stat.
                 destruct (File_Close f); [discriminate|]. eauto 6.
              ** intros (f' & stat' & [= <-] & _ & _ & ->). reflexivity.
           ++ intros f' stat' e [= <-] _ _. rewrite Hread. discriminate.
        -- split; [|split; [discriminate|split;
                    [intros ? ? [= <-]; congruence|]]].
           ++ split; [now destruct (File_Close f)|].
              intros (f' & stat' & [= <-] & Hs & [Hz|[read Hr]] & _).
              ** rewrite Hstat in Hs. injection Hs as <-. lia.
              ** rewrite Hread in Hr. discriminate.
           ++ intros f' stat' e [= <-]. rewrite Hstat, Hread.
              intros [= <-] _ [= <-]. now destruct (File_Close f).
    + split; [|split; [discriminate|split]].
      * split; [now destruct (File_Close f)|].
        intros (f' & stat' & [= <-] & Hs & _). rewrite Hstat in Hs.
        discriminate.
      * intros f' e [= <-]. rewrite Hstat. intros [= <-].
        now destruct (File_Close f).
      * intros f' stat' e [= <-]. rewrite Hstat. discriminate.
  - split; [|split; [|split]].
    + split; [discriminate|]. intros (f & stat & Hf & _). discriminate.
    + now intros e [= <-].
    + discriminate.
    + discriminate.
Qed.

(** ** Embedded file systems *)

(** X22: [Embed.Stat] never answers without a file description and without an
    error, and a file of an embedded file system exists for [FileExists]
    exactly when it opens, [Stat] succeeds on it, it is not a directory,
    and it closes without error. *)
Theorem Embed_FileExists (e : Embed) (name : string) :
  Embed_Stat e name <> (None, None)
  /\ (FileExists e name = true
      <-> exists f stats,
            Embed_FS e name = inl f /\ File_Stat f = inl stats
            /\ File_Close f = None /\ IsDir stats = false)
  /\ (forall f stats err,
        Embed_FS e name = inl f -> File_Stat f = inl stats ->
        File_Close f = Some err ->
        Embed_Stat e name
        = (Some stats, Some (PathError "close" name err))).
Proof.
  unfold FileExists, Stat, Embed_StatFS, Embed_Stat, Open, Embed_Open.
  destruct (Embed_FS e name) as [f|eo] eqn:Hopen.
  - destruct (File_Stat f) as [stats|es] eqn:Hstat;
      destruct (File_Close f) as [ec|] eqn:Hclose; simpl;
      (split; [discriminate|]); split.
    + split; [discriminate|].
      intros (f' & stats' & [= <-] & _ & Hc & _). congruence.
    + intros f' stats' err [= <-] Hs Hc. congruence.
    + split.
      * intros Hdir. exists f, stats. apply negb_true_iff in Hdir. auto.
      * intros (f' & stats' & [= <-] & Hs & _ & Hdir).
        assert (stats' = stats) as -> by congruence. now rewrite Hdir.
    + intros f' stats' err [= <-] _ Hc. congruence.
    + split; [discriminate|].
      intros (f' & stats' & [= <-] & Hs & _). congruence.
    + intros f' stats' err [= <-] Hs _. congruence.
    + split; [discriminate|].
      intros (f' & stats' & [= <-] & Hs & _). congruence.
    + intros f' stats' err [= <-] Hs _. congruence.
  - split; [discriminate|]. split.
    + split; [discriminate|]. intros (? & ? & ? & _). discriminate.
    + discriminate.
Qed.

End FileNames.

(** ** The statements at concrete inputs *)

#[local] Existing Instance plainCollaborators.


(** The first registration of a fresh name succeeds and a second one under
    the same name is refused. *)
Lemma AddRule_twice_witness :
  let new_rule : Rule := fun field value parameters form => (Ok true, form) in
  let other : Rule := fun field value parameters form => (Ok false, form) in
  let reg1 := (AddRule "new_rule" false new_rule init).2 in
  AddRule "new_rule" true other reg1
  = (Panicked (RuleAlreadyExists "new_rule"), reg1).
Proof.
  intros new_rule other reg1.
  apply (AddRule_twice init reg1 "new_rule" false true new_rule other).
  reflexivity.
Defined.

Lemma nullable_consumes_nil_witness :
  validate init jsonRequest
    {[ "nullField" := ["required"; "nullable"; "numeric"] ]} "en-US"
    {[ "nullField" := VNil ]}
  = (Ok ∅, {[ "nullField" := VNil ]}).
Proof.
  assert (Htest : ParseFloat "test" = None) by reflexivity.
  destruct (nullable_consumes_nil jsonRequest "en-US" Htest)
    as (_ & Hnil & _).
  exact Hnil.
Defined.

Lemma array_rule_witness :
  validateRules init "en-US" "string" [">min:3"] ∅
    {[ "string" := VString "hi" ]}
  = (Panicked (NonArrayField "string" "string"),
     {[ "string" := VString "hi" ]}).
Proof.
  assert (Hparse : parseRule init ">min:3" = Ok ("min", true, ["3"]))
    by reflexivity.
  assert (Hthree : ParseFloat "3" = Some 3%float) by reflexivity.
  destruct (array_rule init formRequest "en-US" "string" ">min:3" "min" ["3"]
              [] ∅ {[ "string" := VString "hi" ]} Hparse Hthree)
    as (Hpanic & _).
  apply Hpanic. discriminate.
Defined.


Lemma rule_contexts_witness :
  (validateRuleInArray (AddRule "has_owner" false hasOwner init).2
     "has_owner" "tags" []
     {[ "tags" := VSlice TString [VString "a"];
        "owner" := VString "bob" ]}).1
  = (validateRuleInArray (AddRule "has_owner" false hasOwner init).2
       "has_owner" "tags" []
       {[ "tags" := VSlice TString [VString "a"] ]}).1.
Proof.
  assert (Hr : validationRules (AddRule "has_owner" false hasOwner init).2
                 !! "has_owner" = Some hasOwner) by reflexivity.
  destruct (rule_contexts (AddRule "has_owner" false hasOwner init).2 "en-US"
              "tags" "has_owner" "has_owner" [] hasOwner [] ∅
              {[ "tags" := VSlice TString [VString "a"] ]} Hr)
    as (_ & _ & Hsame & _).
  apply Hsame. reflexivity.
Defined.

(** An element check is not handed the data tree: on the tree that holds an
    owner next to the tags, the rule that asks for an owner accepts the
    element when it is given the tree, and the array-wise check reports the
    element as failing. *)
Lemma element_context_counterexample : ~ elementChecksSeeTree.
Proof.
  intros Hclaim.
  apply (Hclaim (AddRule "has_owner" false hasOwner init).2 "has_owner"
           hasOwner "tags" [] TString [VString "a"]
           {[ "tags" := VSlice TString [VString "a"];
              "owner" := VString "bob" ]})
    with (errorValue := {| rtype := Some TString; rvalue := VString "a" |});
    reflexivity.
Qed.


Lemma array_rule_write_back_witness :
  validate init formRequest {[ "string" := [">numeric"] ]} "en-US"
    {[ "string" := VSlice TString [VString "1"; VString "x"] ]}
  = (Panicked (RuntimeError "reflect.Value.Set"),
     {[ "string" := VSlice TString [VString "1"; VString "x"] ]}).
Proof.
  assert (Hparse : parseRule init ">numeric" = Ok ("numeric", true, []))
    by reflexivity.
  assert (Hone : ParseFloat "1" = Some (float64 1)) by reflexivity.
  destruct (array_rule_write_back init formRequest "en-US" "string"
              ">numeric" "numeric" [] [] ∅
              {[ "string" := VSlice TString [VString "1"; VString "x"] ]}
              Hparse) as (_ & Hstrings & _).
  exact (Hstrings (float64 1) Hone).
Defined.

Lemma after_field_wildcard_witness :
  exists v,
    V5.AfterField "object.field[]" = Ok v
    /\ V5.Validate v
         {| V5.Value := VTime 1678961202000000000;
            V5.Data :=
              V5.makeAfterFieldData
                [1678874862000000000; 1678961262000000000] |}
       = Ok false.
Proof.
  destruct (after_field_wildcard 1678874862000000000 1678961262000000000)
    as (v & Hv & _ & _ & Hbetween & _); [lia|].
  exists v. split; [exact Hv|]. apply Hbetween. lia.
Defined.

Lemma langEntry_interface_element_witness :
  langEntry init "min" {| rtype := Some TInterface; rvalue := VString "hi" |}
    true
  = "validation.rules.min.numeric.array".
Proof. apply langEntry_interface_element. reflexivity. Defined.

Lemma parseRule_formatRule_witness :
  formatRule "between" false ["1"; "2"] = "between:1,2".
Proof.
  assert (Hparse : parseRule init "between:1,2"
                   = Ok ("between", false, ["1"; "2"])) by reflexivity.
  destruct (parseRule_formatRule init _ _ _ _ Hparse) as [Hformat _].
  exact Hformat.
Defined.

Lemma formatRule_parseRule_witness :
  parseRule init (formatRule "min" true ["3"]) = Ok ("min", true, ["3"]).
Proof.
  apply formatRule_parseRule.
  - eexists. reflexivity.
  - discriminate.
  - reflexivity.
  - reflexivity.
  - discriminate.
  - repeat constructor.
Defined.

Lemma RequireParametersCount_parsed_witness :
  RequireParametersCount "min" [EmptyString] 1 tt = (Ok tt, tt).
Proof.
  assert (Hparse : parseRule init "min:" = Ok ("min", false, [EmptyString]))
    by reflexivity.
  exact (RequireParametersCount_parsed init "min:" "min" false [EmptyString]
           tt Hparse).
Defined.

Lemma AddRule_registers_witness :
  exists reg',
    AddRule "has_owner" false hasOwner init = (Ok tt, reg')
    /\ validationRules reg' !! "has_owner" = Some hasOwner.
Proof.
  assert (Hfresh : validationRules init !! "has_owner" = None)
    by reflexivity.
  destruct (AddRule_registers init "has_owner" false hasOwner Hfresh)
    as (reg' & Hadd & Hrule & _).
  exists reg'. split; [exact Hadd|exact Hrule].
Defined.

Lemma validateField_errors_witness :
  exists added : list string,
    default [] (({[ "nullField" := ["validation.rules.numeric"] ]} : Errors)
                  !! "nullField")
    = (default [] ((∅ : Errors) !! "nullField") ++ added)%list
    /\ (length added <= 3)%nat.
Proof.
  assert (Hrun : validateField init true "en-US" "nullField"
                   ["required"; "nullable"; "numeric"] ∅
                   {[ "nullField" := VString "test" ]}
                 = (Ok {[ "nullField" := ["validation.rules.numeric"] ]},
                    {[ "nullField" := VString "test" ]}))
    by reflexivity.
  destruct (validateField_errors init true "en-US" "nullField"
              ["required"; "nullable"; "numeric"] ∅
              {[ "nullField" := VString "test" ]} _ _ Hrun)
    as (_ & added & Hadded & Hlen & _).
  exists added. split; [exact Hadded|exact Hlen].
Defined.

Lemma validate_errors_witness :
  ["validation.rules.numeric"] <> []
  /\ exists field,
       ({[ "nullField" := ["required"; "nullable"; "numeric"] ]} : RuleSet)
         !! "nullField" = Some field
       /\ (1 <= length field)%nat.
Proof.
  assert (Htest : ParseFloat "test" = None) by reflexivity.
  assert (Hmsgs : ({[ "nullField" := ["validation.rules.numeric"] ]} : Errors)
                    !! "nullField" = Some ["validation.rules.numeric"])
    by reflexivity.
  exact (validate_errors init jsonRequest _ "en-US" _ _ _
           (validate_nullField_test jsonRequest "en-US" Htest)
           "nullField" ["validation.rules.numeric"] Hmsgs).
Defined.

Lemma validateRules_empty_array_witness :
  validateRules init "en-US" "string" [">min:3"] ∅
    {[ "string" := VSlice TString [] ]}
  = validateRules init "en-US" "string" [] ∅
      {[ "string" := VSlice TString [] ]}.
Proof.
  assert (Hparse : parseRule init ">min:3" = Ok ("min", true, ["3"]))
    by reflexivity.
  apply (validateRules_empty_array init "en-US" "string" ">min:3" "min" ["3"]
           [] ∅ TString _ Hparse); [reflexivity|discriminate].
Defined.

Lemma GetMIMEType_order_witness :
  fsutil.GetMIMEType plainTextDetector
    (reverse (map_to_list fsutil.contentTypeByExtension))
    ({[ "data.json" := jsonFile ]} : gmap string fsutil.File) "data.json"
  = fsutil.GetMIMEType plainTextDetector
      (map_to_list fsutil.contentTypeByExtension)
      ({[ "data.json" := jsonFile ]} : gmap string fsutil.File) "data.json".
Proof.
  apply GetMIMEType_order; [apply reverse_Permutation|reflexivity].
Defined.

Lemma byExtension_cases_witness :
  fsutil.byExtension (map_to_list fsutil.contentTypeByExtension) "data.json"
    "text/plain; charset=utf-8"
  = "application/json; charset=utf-8".
Proof.
  assert (Horder : map_to_list fsutil.contentTypeByExtension
                   ≡ₚ map_to_list fsutil.contentTypeByExtension)
    by reflexivity.
  destruct (byExtension_cases _ "data.json" "text/plain; charset=utf-8"
              Horder) as (_ & Hknown & _).
  apply (Hknown ".json" "application/json"); [reflexivity|reflexivity|].
  right. reflexivity.
Defined.

Lemma GetMIMEType_detected_witness :
  fsutil.GetMIMEType plainTextDetector
    (map_to_list fsutil.contentTypeByExtension)
    ({[ "data.json" := jsonFile ]} : gmap string fsutil.File) "data.json"
  = (fsutil.byExtension (map_to_list fsutil.contentTypeByExtension)
       "data.json" "text/plain; charset=utf-8",
     2, None).
Proof.
  assert (Hopen : fsutil.Open
                    ({[ "data.json" := jsonFile ]} : gmap string fsutil.File)
                    "data.json" = inl jsonFile) by reflexivity.
  assert (Hstat : fsutil.File_Stat jsonFile
                  = inl {| fsutil.Size := 2; fsutil.IsDir := false |})
    by reflexivity.
  destruct (GetMIMEType_detected plainTextDetector _ "data.json"
              (map_to_list fsutil.contentTypeByExtension) jsonFile _
              Hopen Hstat) as [_ Hread].
  destruct (Hread ["{"; "}"]%char) as [Hresult _];
    [discriminate|reflexivity|].
  exact Hresult.
Defined.
